(** * check-peer-dependencies: the checker of [src/checkPeerDependencies.ts]

    A shallow embedding of the peer-dependency checker: the satisfaction
    classifier ([applySemverInformation]), the status report, the
    no-solution diagnostics ([findSolutions]) and the bounded
    re-verification loop ([installPeerDependencies] and
    [checkPeerDependencies]), followed by the properties of the design
    document that concern them.

    The functions imported from other modules ([./packageUtils],
    [./solution], [./packageManager], [semver], [shelljs]) are the fields
    of the interface [Collaborators]; the state of the disk and of the
    registry they read and change is an abstract type [World]. *)

From Stdlib Require Import List String Ascii Bool Arith ZArith Lia.
From Stdlib Require Import Permutation Sorted DecimalString OrdersEx.
Import ListNotations.

Local Open Scope string_scope.
Local Open Scope list_scope.

Set Implicit Arguments.

(** ** JavaScript values and string helpers *)

Module JS.

(** [String(x)] for a value that is a string or [undefined]. *)
Definition toString (x : option string) : string :=
  match x with
  | Some s => s
  | None => "undefined"
  end.

(** Truthiness of a value that is a string or [undefined]: only the
    empty string and [undefined] are falsy. *)
Definition truthy (x : option string) : bool :=
  match x with
  | Some s => negb (s =? EmptyString)
  | None => false
  end.

(** [n] printed in decimal, as a template string does for a number. *)
Definition ofNat (n : nat) : string :=
  NilEmpty.string_of_uint (Nat.to_uint n).

(** The one-character string holding a double quote. *)
Definition quote : string := String (ascii_of_nat 34) EmptyString.

(** [Array.prototype.join]. *)
Fixpoint join (sep : string) (l : list string) : string :=
  match l with
  | [] => EmptyString
  | [x] => x
  | x :: rest => x ++ sep ++ join sep rest
  end.

(** [Array.prototype.includes] on an array of strings. *)
Definition includes (acc : list string) (x : string) : bool :=
  existsb (String.eqb x) acc.

(** [Array.prototype.sort] with a comparator: the sort is stable
    (ECMAScript 2019), an element [a] stays before [b] unless the
    comparator says [a > b]. *)
Section Sort.
Variable A : Type.
Variable cmp : A -> A -> Z.

Fixpoint insert (x : A) (l : list A) : list A :=
  match l with
  | [] => [x]
  | y :: ys => if (cmp x y <=? 0)%Z then x :: y :: ys else y :: insert x ys
  end.

Fixpoint sort (l : list A) : list A :=
  match l with
  | [] => []
  | x :: xs => insert x (sort xs)
  end.

(** [a] may stand before [b]. *)
Definition ordered (a b : A) : Prop := (cmp a b <= 0)%Z.
End Sort.

End JS.

(** ** Regular expressions

    A matcher by derivatives for the fragment the checker's pattern
    uses, over the characters of a string. *)

Module Regex.

Inductive re : Type :=
| Void
| Eps
| Chr (c : ascii)
| Class (p : ascii -> bool)
| Cat (r1 r2 : re)
| Alt (r1 r2 : re)
| Star (r : re).

(** [r+] *)
Definition Plus (r : re) : re := Cat r (Star r).

(** The literal [s]. *)
Fixpoint Lit (s : string) : re :=
  match s with
  | EmptyString => Eps
  | String c s' => Cat (Chr c) (Lit s')
  end.

Fixpoint nullable (r : re) : bool :=
  match r with
  | Void => false
  | Eps => true
  | Chr _ => false
  | Class _ => false
  | Cat r1 r2 => nullable r1 && nullable r2
  | Alt r1 r2 => nullable r1 || nullable r2
  | Star _ => true
  end.

Fixpoint deriv (a : ascii) (r : re) : re :=
  match r with
  | Void => Void
  | Eps => Void
  | Chr c => if Ascii.eqb a c then Eps else Void
  | Class p => if p a then Eps else Void
  | Cat r1 r2 =>
      if nullable r1
      then Alt (Cat (deriv a r1) r2) (deriv a r2)
      else Cat (deriv a r1) r2
  | Alt r1 r2 => Alt (deriv a r1) (deriv a r2)
  | Star r1 => Cat (deriv a r1) (Star r1)
  end.

(** Does the whole of [s] match [r]? *)
Fixpoint matches (r : re) (s : string) : bool :=
  match s with
  | EmptyString => nullable r
  | String a s' => matches (deriv a r) s'
  end.

(** All the suffixes of [s], longest first: the positions at which a
    search may start. *)
Fixpoint suffixes (s : string) : list string :=
  match s with
  | EmptyString => [EmptyString]
  | String _ s' => s :: suffixes s'
  end.

(** [/r$/.exec(s)] is not [null]: some substring of [s] that reaches the
    end of [s] matches [r] (no [m] flag, so [$] is the end of input). *)
Definition exec_at_end (r : re) (s : string) : bool :=
  existsb (matches r) (suffixes s).

(** Every character of [s] is in the class [p]. *)
Fixpoint allIn (p : ascii -> bool) (s : string) : bool :=
  match s with
  | EmptyString => true
  | String c s' => p c && allIn p s'
  end.

(** The language of [r]. *)
Inductive Lang : re -> string -> Prop :=
| LEps : Lang Eps EmptyString
| LChr c : Lang (Chr c) (String c EmptyString)
| LClass (p : ascii -> bool) c : p c = true -> Lang (Class p) (String c EmptyString)
| LCat r1 r2 s1 s2 : Lang r1 s1 -> Lang r2 s2 -> Lang (Cat r1 r2) (s1 ++ s2)
| LAltL r1 r2 s : Lang r1 s -> Lang (Alt r1 r2) s
| LAltR r1 r2 s : Lang r2 s -> Lang (Alt r1 r2) s
| LStar0 r : Lang (Star r) EmptyString
| LStarS r c s1 s2 :
    Lang r (String c s1) -> Lang (Star r) s2 ->
    Lang (Star r) (String c s1 ++ s2).

End Regex.

(** ** Data model *)

(** One peer-dependency edge ([Dependency] of [./packageUtils]), with the
    three fields [applySemverInformation] adds. *)
Record Dependency : Type := mkDependency {
  name : string;
  version : string;
  depender : string;
  dependerVersion : string;
  installedVersion : option string;
  semverSatisfies : bool;
  isYalc : bool
}.

(** [Resolution] of [./solution]: [resolution] is the version found, or
    is absent. *)
Record Resolution : Type := mkResolution {
  problem : Dependency;
  resolution : option string
}.

(** The options the checker reads ([CliOptions] of [./cli]);
    [findSolutions_opt] is [options.findSolutions]. *)
Record CliOptions : Type := mkCliOptions {
  verbose : bool;
  orderBy : option string;
  install : bool;
  findSolutions_opt : bool
}.

(** The imported functions.  [World] is the state of [node_modules] and
    of the registry: [exec] changes it, the others read it. *)
Class Collaborators (World : Type) : Type := {
  gatherPeerDependencies : World -> CliOptions -> list Dependency;
  getInstalledVersion : World -> Dependency -> option string;
  isSameDep : Dependency -> Dependency -> bool;
  findPossibleResolutions :
    World -> list Dependency -> list Dependency -> list Resolution;
  getCommandLines : string -> list Resolution -> list string;
  exec : string -> World -> World;
  (** [semver.satisfies(version, range)] *)
  semver_satisfies : string -> string -> bool;
  (** [a.localeCompare(b)]: negative, zero or positive *)
  localeCompare : string -> string -> Z
}.

(** ** The satisfaction classifier (lines 10-22) *)

(** The class [[a-f0-9]]: the code units from [a] to [f] and from [0]
    to [9]. *)
Definition hexDigit (c : ascii) : bool :=
  let n := nat_of_ascii c in
  (((97 <=? n) && (n <=? 102)) || ((48 <=? n) && (n <=? 57)))%nat.

(** [/-[a-f0-9]+-yalc$/] without its end anchor. *)
Definition yalcPattern : Regex.re :=
  Regex.Cat (Regex.Chr "-")
    (Regex.Cat (Regex.Plus (Regex.Class hexDigit)) (Regex.Lit "-yalc")).

Section Classifier.
Context {World : Type} {C : Collaborators World}.

Definition applySemverInformation (w : World) (dep : Dependency) : Dependency :=
  let installedVersion := getInstalledVersion w dep in
  let semverSatisfies :=
    if JS.truthy installedVersion
    then semver_satisfies (JS.toString installedVersion) (version dep)
    else false in
  let isYalc := Regex.exec_at_end yalcPattern (JS.toString installedVersion) in
  {| name := name dep;
     version := version dep;
     depender := depender dep;
     dependerVersion := dependerVersion dep;
     installedVersion := installedVersion;
     semverSatisfies := semverSatisfies;
     isYalc := isYalc |}.

Definition getAllNestedPeerDependencies (w : World) (options : CliOptions)
  : list Dependency :=
  let gatheredDependencies := gatherPeerDependencies w options in
  map (applySemverInformation w) gatheredDependencies.

End Classifier.

(** ** Process state and effects *)

(** What the process writes and runs, in order: [console.log] of a
    per-record status line, any other [console.log], [console.error], and
    a command passed to [exec]. *)
Inductive Event : Type :=
| Status (line : string)
| Log (line : string)
| Err (line : string)
| Exec (command : string).

(** How the process ends: the exported function returns and the process
    leaves with status 0, or [process.exit(code)] was called. *)
Inductive Termination : Type :=
| Returned
| Exited (code : Z).

Definition exitStatus (t : Termination) : Z :=
  match t with
  | Returned => 0%Z
  | Exited code => code
  end.

Section Process.
Variable World : Type.

(** [recursiveCount] is the module-level counter of line 24; [console]
    is everything written so far. *)
Record State : Type := mkState {
  world : World;
  recursiveCount : nat;
  console : list Event
}.

(** The state a fresh process starts in. *)
Definition initial (w : World) : State :=
  {| world := w; recursiveCount := 0; console := [] |}.

(** A computation returns a value or leaves through [process.exit]. *)
Inductive Res (A : Type) : Type :=
| Ret (a : A) (s : State)
| Exit (code : Z) (s : State).

(** [None] only when the recursion budget of the model is used up. *)
Definition Proc (A : Type) : Type := State -> option (Res A).

Definition ret {A} (a : A) : Proc A := fun s => Some (Ret a s).

Definition bind {A B} (m : Proc A) (k : A -> Proc B) : Proc B :=
  fun s =>
    match m s with
    | Some (Ret a s') => k a s'
    | Some (Exit _ code s') => Some (Exit B code s')
    | None => None
    end.

Definition emit (e : Event) : Proc unit :=
  fun s => Some (Ret tt {| world := world s;
                           recursiveCount := recursiveCount s;
                           console := console s ++ [e] |}).

Definition readWorld : Proc World := fun s => Some (Ret (world s) s).

(** [++recursiveCount] *)
Definition preIncrement : Proc nat :=
  fun s => Some (Ret (S (recursiveCount s))
                     {| world := world s;
                        recursiveCount := S (recursiveCount s);
                        console := console s |}).

Definition process_exit {A} (code : Z) : Proc A :=
  fun s => Some (Exit A code s).

Definition outOfBudget {A} : Proc A := fun _ => None.

Fixpoint forEach {A} (l : list A) (f : A -> Proc unit) : Proc unit :=
  match l with
  | [] => ret tt
  | x :: rest => bind (f x) (fun _ => forEach rest f)
  end.

(** What a finished computation leaves behind. *)
Definition termination {A} (r : Res A) : Termination :=
  match r with
  | Ret _ _ => Returned
  | Exit _ code _ => Exited code
  end.

Definition finalState {A} (r : Res A) : State :=
  match r with
  | Ret _ s => s
  | Exit _ _ s => s
  end.

End Process.

Arguments Exit {World A} code s.
Arguments Ret {World A} a s.
Arguments ret {World A} a.
Arguments emit {World} e.
Arguments readWorld {World}.
Arguments preIncrement {World}.
Arguments process_exit {World A} code.
Arguments outOfBudget {World A}.

Declare Scope checker_scope.
Delimit Scope checker_scope with checker.

Notation "x <- m ;; k" := (bind m (fun x => k))
  (at level 61, m at next level, right associativity) : checker_scope.
Notation "m ;; k" := (bind m (fun _ => k))
  (at level 61, right associativity) : checker_scope.

Local Open Scope checker_scope.

(** ** The status report (lines 26-52) *)

Section Checker.
Context {World : Type} {C : Collaborators World}.

Local Abbreviation M := (Proc World).

(** [exec(command)] of shelljs. *)
Definition run (command : string) : M unit :=
  fun s => Some (Ret tt {| world := exec command (world s);
                           recursiveCount := recursiveCount s;
                           console := console s ++ [Exec command] |}).

Definition reportPeerDependencyStatusByDepender
    (dep : Dependency) (options : CliOptions) : M unit :=
  if semverSatisfies dep then
    if verbose options then
      emit (Status ("  ✅  " ++ depender dep ++ "@" ++ dependerVersion dep
                    ++ " requires " ++ name dep ++ " " ++ version dep
                    ++ " (" ++ JS.toString (installedVersion dep)
                    ++ " is installed)"))
    else ret tt
  else if isYalc dep then
    emit (Status ("  ☑️  " ++ depender dep ++ "@" ++ dependerVersion dep
                  ++ " requires " ++ name dep ++ " " ++ version dep
                  ++ " (" ++ JS.toString (installedVersion dep)
                  ++ " is installed via yalc)"))
  else if JS.truthy (installedVersion dep) then
    emit (Status ("  ❌  " ++ depender dep ++ "@" ++ dependerVersion dep
                  ++ " requires " ++ name dep ++ " " ++ version dep
                  ++ " (" ++ JS.toString (installedVersion dep)
                  ++ " is installed)"))
  else
    emit (Status ("  ❌  " ++ depender dep ++ "@" ++ dependerVersion dep
                  ++ " requires " ++ name dep ++ " " ++ version dep
                  ++ " (" ++ name dep ++ " is not installed)")).

Definition reportPeerDependencyStatusByDependee
    (dep : Dependency) (options : CliOptions) : M unit :=
  if semverSatisfies dep then
    if verbose options then
      emit (Status ("  ✅  " ++ name dep ++ " " ++ version dep
                    ++ " is required by " ++ depender dep ++ "@"
                    ++ dependerVersion dep
                    ++ " (" ++ JS.toString (installedVersion dep)
                    ++ " is installed)"))
    else ret tt
  else if isYalc dep then
    emit (Status ("  ☑️  " ++ name dep ++ " " ++ version dep
                  ++ " is required by " ++ depender dep ++ "@"
                  ++ dependerVersion dep
                  ++ " (" ++ JS.toString (installedVersion dep)
                  ++ " is installed via yalc)"))
  else if JS.truthy (installedVersion dep) then
    emit (Status ("  ❌  " ++ name dep ++ " " ++ version dep
                  ++ " is required by " ++ depender dep ++ "@"
                  ++ dependerVersion dep
                  ++ " (" ++ JS.toString (installedVersion dep)
                  ++ " is installed)"))
  else
    emit (Status ("  ❌  " ++ name dep ++ " " ++ version dep
                  ++ " is required by " ++ depender dep ++ "@"
                  ++ dependerVersion dep
                  ++ " (" ++ name dep ++ " is not installed)")).

(** ** The no-solution diagnostics (lines 55-77) *)

(** Lines 66-67: the ranges declared for [name], each once. *)
Definition peerDepRanges (name0 : string)
    (allNestedPeerDependencies : list Dependency) : list string :=
  fold_left
    (fun acc dep =>
       if JS.includes acc (version dep) then acc else acc ++ [version dep])
    (filter (fun dep => name dep =? name0) allNestedPeerDependencies)
    [].

(** Lines 64-68: the line written for one resolution without a version. *)
Definition noSolutionLine (solution : Resolution)
    (allNestedPeerDependencies : list Dependency) : string :=
  let name0 := name (problem solution) in
  let errorPrefix :=
    ("Unable to find a version of " ++ name0
     ++ " that satisfies the following peerDependencies:")%string in
  ("  ❌  " ++ errorPrefix ++ " "
   ++ JS.join " and " (peerDepRanges name0 allNestedPeerDependencies))%string.

Definition findSolutions
    (problems allNestedPeerDependencies : list Dependency)
  : M (list Resolution * list Resolution) :=
  emit (Log EmptyString) ;;
  emit (Log "Searching for solutions...") ;;
  emit (Log EmptyString) ;;
  w <- readWorld ;;
  let resolutions :=
    findPossibleResolutions w problems allNestedPeerDependencies in
  let resolutionsWithSolutions :=
    filter (fun r => JS.truthy (resolution r)) resolutions in
  let nosolution :=
    filter (fun r => negb (JS.truthy (resolution r))) resolutions in
  forEach nosolution
    (fun solution =>
       emit (Err (noSolutionLine solution allNestedPeerDependencies))) ;;
  (if (0 <? List.length nosolution)%nat then emit (Err EmptyString) else ret tt) ;;
  ret (resolutionsWithSolutions, nosolution).

(** ** The re-verification loop (lines 79-148) *)

(** Lines 88-90. *)
Definition newUnsatisfied (w : World) (options : CliOptions)
    (nosolution : list Resolution) : list Dependency :=
  filter
    (fun dep => negb (existsb (fun x => isSameDep (problem x) dep) nosolution))
    (filter (fun dep => negb (semverSatisfies dep))
       (getAllNestedPeerDependencies w options)).

(** [installPeerDependencies], with the function it calls back as the
    argument [check]. *)
Definition installPeerDependencies
    (check : string -> CliOptions -> M unit)
    (commandLines : list string) (options : CliOptions)
    (nosolution : list Resolution) (packageManager : string) : M unit :=
  emit (Log "Installing peerDependencies...") ;;
  emit (Log EmptyString) ;;
  forEach commandLines
    (fun command =>
       emit (Log ("$ " ++ command)) ;;
       run command ;;
       emit (Log EmptyString)) ;;
  w <- readWorld ;;
  let newUnsatisfiedDeps := newUnsatisfied w options nosolution in
  (if (List.length nosolution =? 0)%nat && (List.length newUnsatisfiedDeps =? 0)%nat
   then emit (Log "All peer dependencies are met")
   else ret tt) ;;
  if (0 <? List.length newUnsatisfiedDeps)%nat then
    emit (Log ("Found " ++ JS.ofNat (List.length newUnsatisfiedDeps)
               ++ " new unmet peerDependencies...")) ;;
    n <- preIncrement ;;
    if (n <? 5)%nat then
      check packageManager options
    else
      emit (Err "Recursion limit reached (5)") ;;
      process_exit 5
  else
    ret tt.

(** The comparators of lines 112 and 115. *)
Definition byDepender (a b : Dependency) : Z :=
  localeCompare (depender a ++ name a) (depender b ++ name b).

Definition byDependee (a b : Dependency) : Z :=
  localeCompare (name a ++ depender a) (name b ++ depender b).

(** Lines 111-117.  [sort] works in place: the array the rest of
    [checkPeerDependencies] reads is the sorted one, which this
    function returns. *)
Definition orderByIs (options : CliOptions) (value : string) : bool :=
  match orderBy options with
  | Some o => (o =? value)%string
  | None => false
  end.

Definition reportStatus (options : CliOptions)
    (allNestedPeerDependencies : list Dependency) : M (list Dependency) :=
  if orderByIs options "depender" then
    let sorted := JS.sort byDepender allNestedPeerDependencies in
    forEach sorted
      (fun dep => reportPeerDependencyStatusByDepender dep options) ;;
    ret sorted
  else if orderByIs options "dependee" then
    let sorted := JS.sort byDependee allNestedPeerDependencies in
    forEach sorted
      (fun dep => reportPeerDependencyStatusByDependee dep options) ;;
    ret sorted
  else ret allNestedPeerDependencies.

(** [checkPeerDependencies].  [budget] bounds the depth of the mutual
    recursion with [installPeerDependencies]. *)
Fixpoint checkPeerDependencies (budget : nat)
    (packageManager : string) (options : CliOptions) : M unit :=
  match budget with
  | O => outOfBudget
  | S budget' =>
      w <- readWorld ;;
      allNestedPeerDependencies <-
        reportStatus options (getAllNestedPeerDependencies w options) ;;
      let problems :=
        filter (fun dep => negb (semverSatisfies dep) && negb (isYalc dep))
          allNestedPeerDependencies in
      if (List.length problems =? 0)%nat then
        emit (Log "  ✅  All peer dependencies are met")
      else
        if install options then
          r <- findSolutions problems allNestedPeerDependencies ;;
          let '(resolutionsWithSolutions, nosolution) := r in
          let commandLines :=
            getCommandLines packageManager resolutionsWithSolutions in
          if (0 <? List.length commandLines)%nat then
            (* line 131 returns what [installPeerDependencies] returns *)
            installPeerDependencies (checkPeerDependencies budget')
              commandLines options nosolution packageManager
          else process_exit 1
        else if findSolutions_opt options then
          r <- findSolutions problems allNestedPeerDependencies ;;
          let '(resolutionsWithSolutions, _) := r in
          let commandLines :=
            getCommandLines packageManager resolutionsWithSolutions in
          (if (0 <? List.length commandLines)%nat then
             emit (Log ("Install peerDependencies using "
                        ++ (if (1 <? List.length commandLines)%nat
                            then "these commands:" else "this command")
                        ++ ":")) ;;
             emit (Log EmptyString) ;;
             forEach commandLines (fun command => emit (Log command)) ;;
             emit (Log EmptyString)
           else ret tt) ;;
          process_exit 1
        else
          emit (Log ("Install peerDependencies using " ++ JS.quote
                     ++ "npx check-peer-dependencies --install" ++ JS.quote)) ;;
          process_exit 1
  end.

End Checker.

(** ** What one pass of the loop computes

    The values [checkPeerDependencies] and [installPeerDependencies]
    compute on the way, as functions of the world a pass starts in. *)

Section Pass.
Context {World : Type} {C : Collaborators World}.

(** [s] after writing [events]. *)
Definition say (s : State World) (events : list Event) : State World :=
  {| world := world s;
     recursiveCount := recursiveCount s;
     console := console s ++ events |}.

(** The array after lines 111-117. *)
Definition reportOrder (options : CliOptions) (l : list Dependency)
  : list Dependency :=
  if orderByIs options "depender" then JS.sort byDepender l
  else if orderByIs options "dependee" then JS.sort byDependee l
  else l.

(** Line 119. *)
Definition isProblem (dep : Dependency) : bool :=
  negb (semverSatisfies dep) && negb (isYalc dep).

Definition passRecords (w : World) (options : CliOptions) : list Dependency :=
  reportOrder options (getAllNestedPeerDependencies w options).

Definition passProblems (w : World) (options : CliOptions) : list Dependency :=
  filter isProblem (passRecords w options).

Definition passResolutions (w : World) (options : CliOptions)
  : list Resolution :=
  findPossibleResolutions w (passProblems w options) (passRecords w options).

Definition passSolved (w : World) (options : CliOptions) : list Resolution :=
  filter (fun r => JS.truthy (resolution r)) (passResolutions w options).

Definition passNoSolution (w : World) (options : CliOptions)
  : list Resolution :=
  filter (fun r => negb (JS.truthy (resolution r))) (passResolutions w options).

Definition passCommands (packageManager : string) (w : World)
    (options : CliOptions) : list string :=
  getCommandLines packageManager (passSolved w options).

(** The world after the commands of lines 82-86. *)
Definition execAll (commandLines : list string) (w : World) : World :=
  fold_left (fun w' command => exec command w') commandLines w.

Definition afterInstall (packageManager : string) (options : CliOptions)
    (w : World) : World :=
  execAll (passCommands packageManager w options) w.

Definition passNewUnsatisfied (packageManager : string) (w : World)
    (options : CliOptions) : list Dependency :=
  newUnsatisfied (afterInstall packageManager options w) options
    (passNoSolution w options).

(** The pass that starts in [w] reaches the Installing step. *)
Definition reachesInstall (packageManager : string) (options : CliOptions)
    (w : World) : Prop :=
  passProblems w options <> []
  /\ install options = true
  /\ passCommands packageManager w options <> [].

(** The world the pass number [k] starts in, when every earlier pass
    installs. *)
Fixpoint passWorld (packageManager : string) (options : CliOptions)
    (w : World) (k : nat) : World :=
  match k with
  | O => w
  | S k' => passWorld packageManager options
              (afterInstall packageManager options w) k'
  end.

(** Each of the first [n] passes reaches the Installing step, and the
    records gathered after it hold an unsatisfied one that is not a
    known no-solution problem. *)
Definition keepsInstalling (packageManager : string) (options : CliOptions)
    (w : World) (n : nat) : Prop :=
  forall k, k < n ->
    reachesInstall packageManager options
      (passWorld packageManager options w k)
    /\ passNewUnsatisfied packageManager
         (passWorld packageManager options w k) options <> [].

(** What [findSolutions] writes (lines 56-74). *)
Definition searchEvents (nosolution : list Resolution)
    (allNestedPeerDependencies : list Dependency) : list Event :=
  [Log EmptyString; Log "Searching for solutions..."; Log EmptyString]
  ++ map (fun r => Err (noSolutionLine r allNestedPeerDependencies)) nosolution
  ++ (if (0 <? List.length nosolution)%nat then [Err EmptyString] else []).

(** What lines 80-86 write and run. *)
Definition installEvents (commandLines : list string) : list Event :=
  Log "Installing peerDependencies..." :: Log EmptyString
  :: flat_map
       (fun command =>
          [Log ("$ " ++ command); Exec command; Log EmptyString])
       commandLines.

(** The state after lines 80-86. *)
Definition installedState (commandLines : list string) (s : State World)
  : State World :=
  {| world := execAll commandLines (world s);
     recursiveCount := recursiveCount s;
     console := console s ++ installEvents commandLines |}.

(** The state after lines 97-98. *)
Definition countedState (found : nat) (s : State World) : State World :=
  {| world := world s;
     recursiveCount := S (recursiveCount s);
     console := console s
                ++ [Log ("Found " ++ JS.ofNat found
                         ++ " new unmet peerDependencies...")] |}.

(** What lines 137-142 write. *)
Definition listingEvents (commandLines : list string) : list Event :=
  match commandLines with
  | [] => []
  | _ =>
      [Log ("Install peerDependencies using "
            ++ (if (1 <? List.length commandLines)%nat
                then "these commands:" else "this command")
            ++ ":");
       Log EmptyString]
      ++ map Log commandLines ++ [Log EmptyString]
  end.

(** What line 144 writes. *)
Definition hintEvent : Event :=
  Log ("Install peerDependencies using " ++ JS.quote
       ++ "npx check-peer-dependencies --install" ++ JS.quote).

End Pass.

(** The number of Installing steps a console shows. *)
Definition isInstallingBanner (e : Event) : bool :=
  match e with
  | Log line => (line =? "Installing peerDependencies...")%string
  | _ => false
  end.

Definition installingSteps (events : list Event) : nat :=
  List.length (filter isInstallingBanner events).

Definition isStatus (e : Event) : bool :=
  match e with
  | Status _ => true
  | _ => false
  end.

(** The distinct elements of [l], in the order of their first
    appearance. *)
Fixpoint firstSeen (l : list string) : list string :=
  match l with
  | [] => []
  | x :: rest => x :: filter (fun y => negb (y =? x)%string) (firstSeen rest)
  end.

(** ** Observations of the console *)

(** [s] starts with [p]. *)
Fixpoint startsWith (p s : string) : bool :=
  match p with
  | EmptyString => true
  | String a p' =>
      match s with
      | EmptyString => false
      | String b s' => Ascii.eqb a b && startsWith p' s'
      end
  end.

Definition isExec (e : Event) : bool :=
  match e with
  | Exec _ => true
  | _ => false
  end.

Definition isErr (e : Event) : bool :=
  match e with
  | Err _ => true
  | _ => false
  end.

(** A status line with the cross mark of lines 34, 36, 48 and 50. *)
Definition isCrossLine (e : Event) : bool :=
  match e with
  | Status line => startsWith "  ❌  " line
  | _ => false
  end.

(** The lines one record gets: how many, and how many with a cross. *)
Definition countsFor (options : CliOptions) (dep : Dependency)
    (events : list Event) : Prop :=
  forallb isStatus events = true
  /\ List.length events
     = (if verbose options || negb (semverSatisfies dep) then 1 else 0)
  /\ List.length (filter isCrossLine events)
     = (if isProblem dep then 1 else 0).

(** ** The two documented readings the properties are compared with *)

(** The installed version ends with [-<hex-digits>-yalc]: some base, then
    a dash, one or more digits among [0-9a-f], then [-yalc]. *)
Definition endsWithYalcSuffix (v : string) : Prop :=
  exists base hex,
    hex <> EmptyString
    /\ Regex.allIn hexDigit hex = true
    /\ v = (base ++ "-" ++ hex ++ "-yalc")%string.

(** The same collaborators with another [semver.satisfies]. *)
Definition withSemver {World} (C : Collaborators World)
    (sat : string -> string -> bool) : Collaborators World :=
  {| gatherPeerDependencies := @gatherPeerDependencies World C;
     getInstalledVersion := @getInstalledVersion World C;
     isSameDep := @isSameDep World C;
     findPossibleResolutions := @findPossibleResolutions World C;
     getCommandLines := @getCommandLines World C;
     exec := @exec World C;
     semver_satisfies := sat;
     localeCompare := @localeCompare World C |}.

(** ** A small semver and scripted collaborators

    Stand-ins for the imported modules, used to run the checker on
    concrete projects. *)

Module MiniSemver.

Definition digit (c : ascii) : option nat :=
  let n := nat_of_ascii c in
  if ((48 <=? n) && (n <=? 57))%nat then Some (n - 48) else None.

(** Reads [M.m.p] (three runs of digits) into [acc]; [cur] is the
    number being read. *)
Fixpoint fields (s : string) (cur : option nat) (acc : list nat)
  : option (list nat) :=
  match s with
  | EmptyString =>
      match cur with Some n => Some (acc ++ [n]) | None => None end
  | String c s' =>
      if Ascii.eqb c "."
      then match cur with
           | Some n => fields s' None (acc ++ [n])
           | None => None
           end
      else match digit c with
           | Some d =>
               fields s' (Some (10 * match cur with Some n => n | None => 0 end + d)) acc
           | None => None
           end
  end.

Definition parseVersion (s : string) : option (nat * nat * nat) :=
  match fields s None [] with
  | Some [a; b; c] => Some (a, b, c)
  | _ => None
  end.

Definition ltVersion (x y : nat * nat * nat) : bool :=
  let '(a, b, c) := x in
  let '(a', b', c') := y in
  ((a <? a') || ((a =? a') && ((b <? b') || ((b =? b') && (c <? c')))))%nat.

Inductive range : Type :=
| AtLeast (v : nat * nat * nat)
| Below (v : nat * nat * nat)
| Exactly (v : nat * nat * nat).

Definition parseRange (s : string) : option range :=
  match s with
  | String ">" (String "=" v) => option_map AtLeast (parseVersion v)
  | String "<" v => option_map Below (parseVersion v)
  | _ => option_map Exactly (parseVersion s)
  end.

Definition validRange (r : string) : bool :=
  match parseRange r with Some _ => true | None => false end.

Definition satisfies (v r : string) : bool :=
  match parseVersion v, parseRange r with
  | Some x, Some (AtLeast y) => negb (ltVersion x y)
  | Some x, Some (Below y) => ltVersion x y
  | Some x, Some (Exactly y) => negb (ltVersion x y) && negb (ltVersion y x)
  | _, _ => false
  end.

(** The highest version of [vs], if any parses. *)
Definition maxVersion (vs : list string) : option string :=
  fold_left
    (fun best v =>
       match parseVersion v with
       | None => best
       | Some x =>
           match best with
           | None => Some v
           | Some b =>
               match parseVersion b with
               | Some y => if ltVersion y x then Some v else best
               | None => Some v
               end
           end
       end)
    vs None.

End MiniSemver.

Module Scripted.

(** The world is the number of commands run so far. *)
Definition World : Type := nat.

(** Modelled from the spec: [isSameDep] of [./packageUtils]; two records
    with equal [(name, depender, version)] are the same logical edge. *)
Definition sameEdge (a b : Dependency) : bool :=
  (name a =? name b)%string && (depender a =? depender b)%string
  && (version a =? version b)%string.

(** Modelled from the spec: [findPossibleResolutions] of [./solution];
    one resolution per distinct problem name, the highest published
    version that satisfies every range declared for that name. *)
Definition resolve (registry : string -> list string)
    (problems allDeps : list Dependency) : list Resolution :=
  flat_map
    (fun n =>
       match filter (fun p => (name p =? n)%string) problems with
       | [] => []
       | p :: _ =>
           let ranges :=
             map version (filter (fun d => (name d =? n)%string) allDeps) in
           let fits :=
             filter (fun v => forallb (MiniSemver.satisfies v) ranges)
               (registry n) in
           [{| problem := p; resolution := MiniSemver.maxVersion fits |}]
       end)
    (firstSeen (map name problems)).

(** Modelled from the spec: [getCommandLines] of [./packageManager];
    one command that installs every resolved package. *)
Definition oneCommand (packageManager : string)
    (resolutions : list Resolution) : list string :=
  match resolutions with
  | [] => []
  | _ =>
      [(packageManager ++ " install "
        ++ JS.join " "
             (map (fun r => name (problem r) ++ "@"
                            ++ JS.toString (resolution r))
                resolutions))%string]
  end.

(** Code-unit order of strings, as a comparator. *)
Definition codeUnitCompare (a b : string) : Z :=
  match OrdersEx.String_as_OT.compare a b with
  | Lt => (-1)%Z
  | Eq => 0%Z
  | Gt => 1%Z
  end.

(** A project given by what is gathered and what is installed after
    each number of commands, and by what the registry publishes. *)
Definition project
    (gathered : nat -> list Dependency)
    (installed : nat -> string -> option string)
    (registry : string -> list string) : Collaborators World :=
  {| gatherPeerDependencies := fun w _ => gathered w;
     getInstalledVersion := fun w dep => installed w (name dep);
     isSameDep := sameEdge;
     findPossibleResolutions := fun _ => resolve registry;
     getCommandLines := oneCommand;
     exec := fun _ w => S w;
     semver_satisfies := MiniSemver.satisfies;
     localeCompare := codeUnitCompare |}.

(** A gathered edge, before classification. *)
Definition edge (depender0 dependerVersion0 name0 range : string) : Dependency :=
  {| name := name0; version := range;
     depender := depender0; dependerVersion := dependerVersion0;
     installedVersion := None; semverSatisfies := false; isYalc := false |}.

End Scripted.


(** ** Sample projects *)

Module Samples.
Import Scripted.

(** Two packages that need [react]; one of them declares a range that
    is not a semver range.  [react] 17.0.2 is installed. *)
Definition reactEdge : Dependency := edge "app" "1.0.0" "react" ">=16.0.0".
Definition brokenEdge : Dependency := edge "widget" "2.1.0" "react" "sixteen".
Definition lodashEdge : Dependency := edge "app" "1.0.0" "lodash" ">=4.0.0".

Definition reactProject : Collaborators World :=
  project
    (fun _ => [reactEdge; brokenEdge; lodashEdge])
    (fun _ n => if (n =? "react")%string then Some "17.0.2" else None)
    (fun _ => []).

(** [react] is installed and fits; [ui-kit] is linked through yalc. *)
Definition yalcProject : Collaborators World :=
  project
    (fun _ => [edge "app" "1.0.0" "react" ">=16.0.0";
               edge "app" "1.0.0" "ui-kit" ">=1.0.0"])
    (fun _ n =>
       if (n =? "react")%string then Some "17.0.2"
       else if (n =? "ui-kit")%string then Some "1.0.0-a1b2c3-yalc"
       else None)
    (fun _ => []).

Definition libEdge : Dependency := edge "app" "1.0.0" "lib" ">=2.0.0".
Definition libVersions : list string := ["1.0.0"; "2.0.0"; "2.5.0"].

(** [lib] 1.0.0 is installed and 2.0.0 is needed; the install command
    brings 2.5.0. *)
Definition upgradeProject : Collaborators World :=
  project
    (fun _ => [libEdge])
    (fun w n =>
       if (n =? "lib")%string
       then Some (match w with O => "1.0.0" | S _ => "2.5.0" end)
       else None)
    (fun n => if (n =? "lib")%string then libVersions else []).

(** As [upgradeProject], and [lib] 2.5.0 needs [tool], which is linked
    through yalc. *)
Definition toolEdge : Dependency := edge "lib" "2.5.0" "tool" ">=1.0.0".

Definition yalcAfterInstall : Collaborators World :=
  project
    (fun w => match w with O => [libEdge] | S _ => [libEdge; toolEdge] end)
    (fun w n =>
       if (n =? "lib")%string
       then Some (match w with O => "1.0.0" | S _ => "2.5.0" end)
       else if (n =? "tool")%string
       then match w with O => None | S _ => Some "1.0.0-beef-yalc" end
       else None)
    (fun n => if (n =? "lib")%string then libVersions else []).

(** The install command never changes what is installed. *)
Definition stuckProject : Collaborators World :=
  project
    (fun _ => [libEdge])
    (fun _ n => if (n =? "lib")%string then Some "1.0.0" else None)
    (fun n => if (n =? "lib")%string then libVersions else []).

(** No version of [left] fits both of its ranges. *)
Definition leftByApp : Dependency := edge "zeta-app" "1.0.0" "left" ">=2.0.0".
Definition leftByPlugin : Dependency := edge "alpha-plugin" "1.0.0" "left" "<1.0.0".
Definition leftVersions : list string := ["0.9.0"; "2.1.0"].

Definition conflictProject : Collaborators World :=
  project
    (fun _ => [leftByApp; leftByPlugin])
    (fun _ _ => None)
    (fun n => if (n =? "left")%string then leftVersions else []).

(** The conflict on [left], and a [lib] the install command never
    brings. *)
Definition conflictStuckProject : Collaborators World :=
  project
    (fun _ => [leftByApp; leftByPlugin; libEdge])
    (fun _ n => if (n =? "lib")%string then Some "1.0.0" else None)
    (fun n =>
       if (n =? "left")%string then leftVersions
       else if (n =? "lib")%string then libVersions else []).

(** [ghost] is published nowhere; [lib] installs as in
    [upgradeProject]. *)
Definition ghostEdge : Dependency := edge "app" "1.0.0" "ghost" ">=1.0.0".

Definition ghostProject : Collaborators World :=
  project
    (fun _ => [ghostEdge; libEdge])
    (fun w n =>
       if (n =? "lib")%string
       then Some (match w with O => "1.0.0" | S _ => "2.5.0" end)
       else None)
    (fun n => if (n =? "lib")%string then libVersions else []).

Definition installOptions : CliOptions :=
  {| verbose := false; orderBy := None; install := true;
     findSolutions_opt := false |}.

Definition installByDepender : CliOptions :=
  {| verbose := false; orderBy := Some "depender"; install := true;
     findSolutions_opt := false |}.

Definition searchOptions : CliOptions :=
  {| verbose := false; orderBy := None; install := false;
     findSolutions_opt := true |}.

Definition reportOnly : CliOptions :=
  {| verbose := true; orderBy := Some "dependee"; install := false;
     findSolutions_opt := false |}.

(** [lib] and [react] both need an upgrade the registry has. *)
Definition twoUpgrades : Collaborators World :=
  project
    (fun _ => [libEdge; reactEdge])
    (fun _ n =>
       if (n =? "lib")%string then Some "1.0.0"
       else if (n =? "react")%string then Some "15.0.0" else None)
    (fun n =>
       if (n =? "lib")%string then libVersions
       else if (n =? "react")%string then ["16.8.0"] else []).


End Samples.


(** * Properties *)

(** ** Strings *)

Lemma append_nil_r (s : string) : (s ++ EmptyString)%string = s.
Proof. induction s as [|c s IH]; simpl; [reflexivity | now rewrite IH]. Qed.

Lemma append_assoc (s1 s2 s3 : string) :
  ((s1 ++ s2) ++ s3)%string = (s1 ++ (s2 ++ s3))%string.
Proof. induction s1 as [|c s1 IH]; simpl; [reflexivity | now rewrite IH]. Qed.

Lemma append_eq_nil (s1 s2 : string) :
  (s1 ++ s2)%string = EmptyString -> s1 = EmptyString /\ s2 = EmptyString.
Proof. destruct s1; simpl; [auto | discriminate]. Qed.

Lemma append_eq_cons (s1 s2 s : string) (a : ascii) :
  (s1 ++ s2)%string = String a s ->
  (s1 = EmptyString /\ s2 = String a s)
  \/ exists s1', s1 = String a s1' /\ s = (s1' ++ s2)%string.
Proof.
  destruct s1 as [|c s1]; simpl; intros H.
  - now left.
  - right. inversion H; subst. now exists s1.
Qed.

(** ** The matcher decides the language of the pattern *)

Module RegexFacts.
Import Regex.

Lemma nullable_sound r : nullable r = true -> Lang r EmptyString.
Proof.
  induction r; simpl; intros H; try discriminate.
  - constructor.
  - apply andb_true_iff in H as [H1 H2].
    change EmptyString with (EmptyString ++ EmptyString)%string.
    constructor; auto.
  - apply orb_true_iff in H as [H|H]; [apply LAltL | apply LAltR]; auto.
  - constructor.
Qed.

Lemma nullable_complete r s : Lang r s -> s = EmptyString -> nullable r = true.
Proof.
  induction 1; intros E; simpl; try discriminate; try reflexivity.
  - apply append_eq_nil in E as [-> ->]. now rewrite IHLang1, IHLang2.
  - now rewrite IHLang.
  - rewrite IHLang by assumption. apply orb_true_r.
Qed.

Lemma deriv_sound a r : forall s, Lang (deriv a r) s -> Lang r (String a s).
Proof.
  induction r; simpl; intros s H.
  - inversion H.
  - inversion H.
  - destruct (Ascii.eqb_spec a c) as [->|]; inversion H; subst. constructor.
  - destruct (p a) eqn:Hp; inversion H; subst. now constructor.
  - assert (Hcat : forall t, Lang (Cat (deriv a r1) r2) t ->
                             Lang (Cat r1 r2) (String a t)).
    { intros t Ht. inversion Ht; subst.
      change (String a (s1 ++ s2)) with (String a s1 ++ s2)%string.
      constructor; auto. }
    destruct (nullable r1) eqn:Hn.
    + inversion H; subst.
      * now apply Hcat.
      * change (String a s) with (EmptyString ++ String a s)%string.
        constructor; [now apply nullable_sound | auto].
    + now apply Hcat.
  - inversion H; subst; [apply LAltL | apply LAltR]; auto.
  - inversion H; subst.
    change (String a (s1 ++ s2)) with (String a s1 ++ s2)%string.
    constructor; auto.
Qed.

Lemma deriv_complete r t :
  Lang r t -> forall a s, t = String a s -> Lang (deriv a r) s.
Proof.
  induction 1; intros a s0 E; simpl; try discriminate.
  - inversion E; subst. rewrite Ascii.eqb_refl. constructor.
  - inversion E; subst. rewrite H. constructor.
  - apply append_eq_cons in E as [[-> ->] | [s1' [-> ->]]].
    + rewrite (nullable_complete H eq_refl).
      apply LAltR. now apply IHLang2.
    + assert (Lang (Cat (deriv a r1) r2) (s1' ++ s2)%string)
        by (constructor; [now apply IHLang1 | assumption]).
      destruct (nullable r1); [now apply LAltL | assumption].
  - apply LAltL. now apply IHLang.
  - apply LAltR. now apply IHLang.
  - simpl in E. inversion E; subst.
    constructor; [now apply IHLang1 | assumption].
Qed.

Lemma matches_Lang r s : matches r s = true <-> Lang r s.
Proof.
  revert r. induction s as [|a s IH]; intros r; simpl.
  - split; [apply nullable_sound | intros H; now apply (nullable_complete H)].
  - rewrite IH. split; [apply deriv_sound | intros H; now apply (deriv_complete H)].
Qed.

Lemma In_suffixes s t : In t (suffixes s) <-> exists p, s = (p ++ t)%string.
Proof.
  induction s as [|a s IH]; simpl.
  - split.
    + intros [<- | []]. now exists EmptyString.
    + intros [p E]. symmetry in E. apply append_eq_nil in E as [_ ->]. now left.
  - rewrite IH. split.
    + intros [<- | [p ->]]; [now exists EmptyString | now exists (String a p)].
    + intros [p E]. symmetry in E.
      apply append_eq_cons in E as [[-> ->] | [p' [-> ->]]];
        [now left | right; now exists p'].
Qed.

Lemma exec_at_end_spec r s :
  exec_at_end r s = true <-> exists p t, s = (p ++ t)%string /\ Lang r t.
Proof.
  unfold exec_at_end. rewrite existsb_exists. split.
  - intros [t [Hin Hm]]. apply In_suffixes in Hin as [p ->].
    exists p, t. split; [reflexivity | now apply matches_Lang].
  - intros [p [t [-> Hl]]]. exists t. split.
    + apply In_suffixes. now exists p.
    + now apply matches_Lang.
Qed.

Lemma Lang_Lit l s : Lang (Lit l) s <-> s = l.
Proof.
  revert s. induction l as [|c l IH]; intros s; simpl.
  - split; [intros H; now inversion H | intros ->; constructor].
  - split.
    + intros H. inversion H as [| | |? ? s1 s2 H1 H2| | | |]; subst.
      inversion H1; subst. apply IH in H2 as ->. reflexivity.
    + intros ->. change (String c l) with (String c EmptyString ++ l)%string.
      constructor; [constructor | now apply IH].
Qed.

Lemma Lang_Star_Class p s : Lang (Star (Class p)) s <-> allIn p s = true.
Proof.
  split.
  - remember (Star (Class p)) as r eqn:Er. induction 1; try discriminate.
    + reflexivity.
    + inversion Er; subst. inversion H; subst. simpl.
      rewrite IHLang2 by reflexivity. now rewrite H3.
  - induction s as [|c s IH]; simpl; intros H.
    + constructor.
    + apply andb_true_iff in H as [Hc Hs].
      change (String c s) with (String c EmptyString ++ s)%string.
      constructor; [now constructor | auto].
Qed.

Lemma Lang_Plus_Class p s :
  Lang (Plus (Class p)) s <-> s <> EmptyString /\ allIn p s = true.
Proof.
  unfold Plus. split.
  - intros H. inversion H as [| | |? ? s1 s2 H1 H2| | | |]; subst.
    inversion H1; subst. apply Lang_Star_Class in H2. simpl.
    split; [discriminate | now rewrite H3, H2].
  - intros [Hne H]. destruct s as [|c s]; [congruence|].
    simpl in H. apply andb_true_iff in H as [Hc Hs].
    change (String c s) with (String c EmptyString ++ s)%string.
    constructor; [now constructor | now apply Lang_Star_Class].
Qed.

End RegexFacts.

(** ** The classifier *)

Lemma hexDigit_spec (c : ascii) :
  hexDigit c = true <-> In c (list_ascii_of_string "0123456789abcdef").
Proof.
  split.
  - intros H.
    destruct c as [[] [] [] [] [] [] [] []]; try discriminate H;
      vm_compute; tauto.
  - intros H. vm_compute in H.
    repeat (destruct H as [<-|H]; [reflexivity|]). destruct H.
Qed.

Lemma undefined_is_not_yalc :
  Regex.exec_at_end yalcPattern (JS.toString None) = false.
Proof. vm_compute. reflexivity. Qed.

Lemma yalcPattern_Lang t :
  Regex.Lang yalcPattern t <->
  exists hex, hex <> EmptyString /\ Regex.allIn hexDigit hex = true
              /\ t = ("-" ++ hex ++ "-yalc")%string.
Proof.
  unfold yalcPattern. split.
  - intros H. inversion H as [| | |? ? s1 s2 H1 H2| | | |]; subst.
    inversion H1; subst.
    inversion H2 as [| | |? ? s3 s4 H3 H4| | | |]; subst.
    apply RegexFacts.Lang_Plus_Class in H3 as [Hne Hall].
    apply (proj1 (RegexFacts.Lang_Lit "-yalc" s4)) in H4. subst s4.
    exists s3. auto.
  - intros [hex [Hne [Hall ->]]].
    change ("-" ++ hex ++ "-yalc")%string
      with (String "-" EmptyString ++ (hex ++ "-yalc"))%string.
    constructor; [constructor|].
    constructor; [now apply RegexFacts.Lang_Plus_Class | now apply RegexFacts.Lang_Lit].
Qed.

Lemma yalc_test_spec (v : string) :
  Regex.exec_at_end yalcPattern v = true <-> endsWithYalcSuffix v.
Proof.
  rewrite RegexFacts.exec_at_end_spec. unfold endsWithYalcSuffix. split.
  - intros [p [t [-> Ht]]]. apply yalcPattern_Lang in Ht as [hex [Hne [Hall ->]]].
    exists p, hex. auto.
  - intros [base [hex [Hne [Hall ->]]]].
    exists base, ("-" ++ hex ++ "-yalc")%string. split; [reflexivity|].
    apply yalcPattern_Lang. exists hex. auto.
Qed.

Section ClassifierFacts.
Context {World : Type} {C : Collaborators World}.

Lemma getAllNestedPeerDependencies_length w options :
  List.length (getAllNestedPeerDependencies w options)
  = List.length (gatherPeerDependencies w options).
Proof. unfold getAllNestedPeerDependencies. apply length_map. Qed.

(** C3. A classified record has [semverSatisfies] true exactly when an
    installed version of its package exists and satisfies the record's
    range; [semver] answers false for the empty version string. *)
Theorem C3_semverSatisfies_iff_installed_satisfies
    (Hempty : forall r, semver_satisfies EmptyString r = false)
    (w : World) (dep : Dependency) :
  semverSatisfies (applySemverInformation w dep) = true
  <-> exists v, getInstalledVersion w dep = Some v
                /\ semver_satisfies v (version dep) = true.
Proof.
  unfold applySemverInformation; simpl.
  destruct (getInstalledVersion w dep) as [v|]; simpl.
  - destruct (String.eqb_spec v EmptyString) as [->|Hne]; simpl.
    + split; [discriminate|].
      intros [v [Hv Hs]]. inversion Hv; subst. now rewrite Hempty in Hs.
    + split.
      * intros H. now exists v.
      * intros [v' [Hv Hs]]. now inversion Hv; subst.
  - split; [discriminate|]. intros [v [Hv _]]. discriminate.
Qed.

(** C4. A classified record has [isYalc] true exactly when its installed
    version ends with [-<hex-digits>-yalc], whatever [semver] says of
    the version: replacing [semver.satisfies] by any other function
    leaves [isYalc] as it is. *)
Theorem C4_isYalc_iff_yalc_suffix (w : World) (dep : Dependency) :
  (isYalc (applySemverInformation w dep) = true
   <-> exists v, getInstalledVersion w dep = Some v /\ endsWithYalcSuffix v)
  /\ (forall sat : string -> string -> bool,
        isYalc (applySemverInformation (C := withSemver C sat) w dep)
        = isYalc (applySemverInformation w dep)).
Proof.
  split; [|reflexivity].
  unfold applySemverInformation; simpl.
  destruct (getInstalledVersion w dep) as [v|].
  - simpl. rewrite yalc_test_spec. split.
    + intros H. now exists v.
    + intros [v' [Hv H]]. now inversion Hv; subst.
  - rewrite undefined_is_not_yalc. split; [discriminate|].
    intros [v [Hv _]]. discriminate.
Qed.

(** C7. A record whose range is not a valid semver range is classified
    as not satisfied, and the records gathered before and after it are
    classified as they are without it: [semver.satisfies] answers false
    for an invalid range, and nothing in the classifier can fail. *)
Theorem C7_malformed_range_is_unsatisfied
    (validRange : string -> bool)
    (Hinvalid : forall v r, validRange r = false -> semver_satisfies v r = false)
    (w : World) (options : CliOptions)
    (before after : list Dependency) (dep : Dependency)
    (Hbad : validRange (version dep) = false)
    (Hgathered : gatherPeerDependencies w options = before ++ dep :: after) :
  semverSatisfies (applySemverInformation w dep) = false
  /\ getAllNestedPeerDependencies w options
     = map (applySemverInformation w) before
       ++ applySemverInformation w dep
       :: map (applySemverInformation w) after.
Proof.
  split.
  - unfold applySemverInformation; simpl.
    destruct (JS.truthy (getInstalledVersion w dep)); [|reflexivity].
    now apply Hinvalid.
  - unfold getAllNestedPeerDependencies. rewrite Hgathered.
    now rewrite map_app.
Qed.

End ClassifierFacts.

Lemma C3_witness :
  semverSatisfies
    (applySemverInformation (C := Samples.reactProject) 0 Samples.reactEdge) = true
  <-> exists v,
      getInstalledVersion (Collaborators := Samples.reactProject) 0 Samples.reactEdge
      = Some v
      /\ semver_satisfies (Collaborators := Samples.reactProject) v
           (version Samples.reactEdge) = true.
Proof.
  apply (C3_semverSatisfies_iff_installed_satisfies (C := Samples.reactProject)).
  intros r. reflexivity.
Defined.

Lemma C7_witness :
  semverSatisfies
    (applySemverInformation (C := Samples.reactProject) 0 Samples.brokenEdge) = false
  /\ getAllNestedPeerDependencies (C := Samples.reactProject) 0
       (mkCliOptions false None false false)
     = map (applySemverInformation (C := Samples.reactProject) 0) [Samples.reactEdge]
       ++ applySemverInformation (C := Samples.reactProject) 0 Samples.brokenEdge
       :: map (applySemverInformation (C := Samples.reactProject) 0)
            [Samples.lodashEdge].
Proof.
  apply (C7_malformed_range_is_unsatisfied (C := Samples.reactProject)
           MiniSemver.validRange).
  - intros v r Hr. unfold MiniSemver.validRange in Hr.
    simpl. unfold MiniSemver.satisfies.
    destruct (MiniSemver.parseRange r); [discriminate|].
    now destruct (MiniSemver.parseVersion v).
  - reflexivity.
  - reflexivity.
Defined.

(** ** One pass of the loop *)

Section PassFacts.
Context {World : Type} {C : Collaborators World}.

Local Abbreviation M := (Proc World).

Lemma say_nil (s : State World) : say s [] = s.
Proof. destruct s; unfold say; simpl. now rewrite app_nil_r. Qed.

Lemma say_say (s : State World) (a b : list Event) :
  say (say s a) b = say s (a ++ b).
Proof. unfold say; simpl. now rewrite app_assoc. Qed.

Lemma length_zero_iff {A} (l : list A) :
  (List.length l =? 0)%nat = true <-> l = [].
Proof. destruct l; simpl; split; intros; congruence. Qed.

Lemma length_pos_iff {A} (l : list A) :
  (0 <? List.length l)%nat = true <-> l <> [].
Proof. destruct l; unfold Nat.ltb; simpl; split; intros; congruence. Qed.

Lemma length_pos_false {A} (l : list A) :
  (0 <? List.length l)%nat = false <-> l = [].
Proof. destruct l; unfold Nat.ltb; simpl; split; intros; congruence. Qed.

Lemma forEach_emit {A} (f : A -> Event) (l : list A) (s : State World) :
  forEach l (fun x => emit (f x)) s = Some (Ret tt (say s (map f l))).
Proof.
  revert s. induction l as [|x l IH]; intros s; simpl.
  - unfold ret. now rewrite say_nil.
  - unfold bind at 1. unfold emit at 1. rewrite IH.
    change {| world := world s; recursiveCount := recursiveCount s;
              console := console s ++ [f x] |} with (say s [f x]).
    now rewrite say_say.
Qed.

Lemma forEach_status {A} (f : A -> M unit) :
  (forall x, exists events,
      forallb isStatus events = true
      /\ forall s : State World, f x s = Some (Ret tt (say s events))) ->
  forall l, exists events,
    forallb isStatus events = true
    /\ forall s : State World, forEach l f s = Some (Ret tt (say s events)).
Proof.
  intros Hf. induction l as [|x l [evs [Hevs IH]]].
  - exists []. split; [reflexivity|]. intros s. simpl. unfold ret.
    now rewrite say_nil.
  - destruct (Hf x) as [ex [Hex Hx]]. exists (ex ++ evs). split.
    + rewrite forallb_app. now rewrite Hex, Hevs.
    + intros s. simpl. unfold bind. rewrite Hx, IH. now rewrite say_say.
Qed.

Lemma reportByDepender_status dep options :
  exists events,
    forallb isStatus events = true
    /\ forall s : State World, reportPeerDependencyStatusByDepender dep options s
                 = Some (Ret tt (say s events)).
Proof.
  unfold reportPeerDependencyStatusByDepender.
  destruct (semverSatisfies dep); [destruct (verbose options)|
    destruct (isYalc dep); [|destruct (JS.truthy (installedVersion dep))]];
    try (eexists [_]; split; [| intros s; reflexivity]; reflexivity).
  exists []. split; [reflexivity|]. intros s. unfold ret. now rewrite say_nil.
Qed.

Lemma reportByDependee_status dep options :
  exists events,
    forallb isStatus events = true
    /\ forall s : State World, reportPeerDependencyStatusByDependee dep options s
                 = Some (Ret tt (say s events)).
Proof.
  unfold reportPeerDependencyStatusByDependee.
  destruct (semverSatisfies dep); [destruct (verbose options)|
    destruct (isYalc dep); [|destruct (JS.truthy (installedVersion dep))]];
    try (eexists [_]; split; [| intros s; reflexivity]; reflexivity).
  exists []. split; [reflexivity|]. intros s. unfold ret. now rewrite say_nil.
Qed.

(** Lines 111-117 write status lines only, none when [orderBy] names
    neither order, and leave the array in the order [reportOrder]. *)
Lemma reportStatus_spec options l :
  exists events,
    forallb isStatus events = true
    /\ (orderByIs options "depender" = false ->
        orderByIs options "dependee" = false -> events = [])
    /\ forall s : State World, reportStatus options l s
                 = Some (Ret (reportOrder options l) (say s events)).
Proof.
  unfold reportStatus, reportOrder.
  destruct (orderByIs options "depender").
  - destruct (forEach_status
                (fun dep => reportPeerDependencyStatusByDepender dep options)
                (fun dep => reportByDepender_status dep options)
                (JS.sort byDepender l)) as [evs [Hevs H]].
    exists evs. split; [assumption|]. split; [discriminate|].
    intros s. unfold bind. now rewrite H.
  - destruct (orderByIs options "dependee").
    + destruct (forEach_status
                  (fun dep => reportPeerDependencyStatusByDependee dep options)
                  (fun dep => reportByDependee_status dep options)
                  (JS.sort byDependee l)) as [evs [Hevs H]].
      exists evs. split; [assumption|]. split; [discriminate|].
      intros s. unfold bind. now rewrite H.
    + exists []. split; [reflexivity|]. split; [reflexivity|].
      intros s. unfold ret. now rewrite say_nil.
Qed.

End PassFacts.

Section LoopFacts.
Context {World : Type} {C : Collaborators World}.

Local Abbreviation M := (Proc World).

Lemma findSolutions_spec problems all (s : State World) :
  let resolutions := findPossibleResolutions (world s) problems all in
  let solved := filter (fun r => JS.truthy (resolution r)) resolutions in
  let nosolution :=
    filter (fun r => negb (JS.truthy (resolution r))) resolutions in
  findSolutions problems all s
  = Some (Ret (solved, nosolution) (say s (searchEvents nosolution all))).
Proof.
  intros resolutions solved nosolution.
  unfold findSolutions, searchEvents.
  unfold bind at 1. unfold emit at 1.
  unfold bind at 1. unfold emit at 1.
  unfold bind at 1. unfold emit at 1.
  unfold bind at 1. unfold readWorld at 1. cbn [world].
  fold resolutions. fold nosolution. fold solved.
  unfold bind at 1.
  rewrite (forEach_emit (fun r => Err (noSolutionLine r all))).
  unfold bind, ret, say; cbn [world recursiveCount console].
  destruct (0 <? List.length nosolution)%nat; unfold emit, ret;
    cbn [world recursiveCount console];
    repeat rewrite <- app_assoc; simpl; try rewrite app_nil_r; reflexivity.
Qed.

Lemma forEach_run (commandLines : list string) (s : State World) :
  forEach commandLines
    (fun command =>
       emit (Log ("$ " ++ command)) ;; run command ;; emit (Log EmptyString)) s
  = Some (Ret tt
            {| world := execAll commandLines (world s);
               recursiveCount := recursiveCount s;
               console :=
                 console s
                 ++ flat_map
                      (fun command =>
                         [Log ("$ " ++ command); Exec command; Log EmptyString])
                      commandLines |}).
Proof.
  revert s. induction commandLines as [|c l IH]; intros s.
  - simpl. unfold ret. destruct s; simpl. now rewrite app_nil_r.
  - cbn [forEach]. unfold bind at 1. unfold bind at 1. unfold emit at 1.
    unfold bind at 1. unfold run at 1. unfold emit at 1.
    rewrite IH. cbn [world recursiveCount console flat_map execAll fold_left].
    repeat rewrite <- app_assoc. reflexivity.
Qed.

(** [installPeerDependencies], line by line. *)
Lemma installPeerDependencies_spec
    (check : string -> CliOptions -> M unit)
    (commandLines : list string) (options : CliOptions)
    (nosolution : list Resolution) (packageManager : string)
    (s : State World) :
  let s1 := installedState commandLines s in
  let found := newUnsatisfied (world s1) options nosolution in
  installPeerDependencies check commandLines options nosolution
    packageManager s
  = match found with
    | [] =>
        Some (Ret tt
                (say s1 (match nosolution with
                         | [] => [Log "All peer dependencies are met"]
                         | _ => []
                         end)))
    | _ =>
        let s2 := countedState (List.length found) s1 in
        if (S (recursiveCount s) <? 5)%nat
        then check packageManager options s2
        else Some (Exit 5 (say s2 [Err "Recursion limit reached (5)"]))
    end.
Proof.
  intros s1 found. unfold installPeerDependencies.
  unfold bind at 1. unfold emit at 1.
  unfold bind at 1. unfold emit at 1.
  unfold bind at 1. rewrite forEach_run.
  cbn [world recursiveCount console].
  unfold bind at 1. unfold readWorld at 1. cbn [world].
  repeat rewrite <- app_assoc.
  change (execAll commandLines (world s)) with (world s1).
  fold found.
  change {| world := world s1; recursiveCount := recursiveCount s;
            console := _ |} with s1.
  destruct found as [|d found'] eqn:Efound.
  - destruct nosolution as [|r nosolution']; cbn [List.length Nat.eqb andb];
      unfold bind, emit, ret; simpl; [reflexivity|].
    now rewrite say_nil.
  - assert (Hlen : (List.length nosolution =? 0)%nat
                   && (List.length (d :: found') =? 0)%nat = false)
      by (simpl; apply andb_false_r).
    rewrite Hlen.
    change (0 <? List.length (d :: found'))%nat with true. cbv iota.
    unfold bind at 1. unfold ret at 1.
    unfold bind at 1. unfold emit at 1.
    unfold bind at 1. unfold preIncrement at 1.
    cbn [world recursiveCount console].
    change (recursiveCount s1) with (recursiveCount s).
    destruct (S (recursiveCount s) <? 5)%nat; [reflexivity|].
    reflexivity.
Qed.

(** What lines 111-117 write in the state [s]. *)
Lemma status_of_pass (options : CliOptions) (s : State World) :
  exists status,
    forallb isStatus status = true
    /\ (orderByIs options "depender" = false ->
        orderByIs options "dependee" = false -> status = [])
    /\ reportStatus options (getAllNestedPeerDependencies (world s) options) s
       = Some (Ret (passRecords (world s) options) (say s status)).
Proof.
  destruct (reportStatus_spec options
              (getAllNestedPeerDependencies (world s) options))
    as [status [H1 [H2 H3]]].
  exists status. auto.
Qed.

(** One call of [checkPeerDependencies], line by line; [status] is what
    lines 111-117 write. *)
Lemma checkPeerDependencies_pass
    (budget : nat) (packageManager : string) (options : CliOptions)
    (s : State World) (status : list Event) :
  reportStatus options (getAllNestedPeerDependencies (world s) options) s
  = Some (Ret (passRecords (world s) options) (say s status)) ->
  let w := world s in
  let s1 := say s status in
  let searched :=
    say s1 (searchEvents (passNoSolution w options)
              (passRecords w options)) in
  checkPeerDependencies (S budget) packageManager options s
  = match passProblems w options with
    | [] => Some (Ret tt (say s1 [Log "  ✅  All peer dependencies are met"]))
    | _ =>
        if install options then
          match passCommands packageManager w options with
          | [] => Some (Exit 1 searched)
          | commandLines =>
              installPeerDependencies
                (checkPeerDependencies budget) commandLines options
                (passNoSolution w options) packageManager searched
          end
        else if findSolutions_opt options then
          Some (Exit 1
                  (say searched
                     (listingEvents
                        (passCommands packageManager w options))))
        else Some (Exit 1 (say s1 [hintEvent]))
    end.
Proof.
  intros Hreport.
  intros w s1 searched.
  cbn [checkPeerDependencies].
  unfold bind at 1. unfold readWorld at 1.
  unfold bind at 1. rewrite Hreport.
  fold w. fold s1.
  change (filter (fun dep => negb (semverSatisfies dep) && negb (isYalc dep))
            (passRecords w options)) with (passProblems w options).
  destruct (passProblems w options) as [|p ps] eqn:Eproblems.
  - reflexivity.
  - cbn [List.length Nat.eqb].
    destruct (install options).
    + unfold bind at 1. rewrite findSolutions_spec.
      change (world s1) with w. rewrite <- Eproblems.
      fold (passResolutions w options).
      fold (passSolved w options). fold (passNoSolution w options).
      fold (passCommands packageManager w options). fold searched.
      destruct (passCommands packageManager w options) as [|c cs];
        reflexivity.
    + destruct (findSolutions_opt options).
      * unfold bind at 1. rewrite findSolutions_spec.
        change (world s1) with w. rewrite <- Eproblems.
        fold (passResolutions w options).
        fold (passSolved w options). fold (passNoSolution w options).
        fold (passCommands packageManager w options). fold searched.
        unfold listingEvents.
        destruct (passCommands packageManager w options) as [|c cs] eqn:Ec.
        -- unfold bind, ret, process_exit. cbn [List.length Nat.ltb Nat.leb].
           now rewrite say_nil.
        -- change (0 <? List.length (c :: cs))%nat with true. cbv iota.
           unfold bind at 1. unfold bind at 1. unfold emit at 1.
           unfold bind at 1. unfold emit at 1.
           unfold bind at 1. rewrite forEach_emit.
           unfold emit, process_exit, say;
             cbn [world recursiveCount console].
           repeat rewrite <- app_assoc. reflexivity.
      * reflexivity.
Qed.

End LoopFacts.

(** ** The sort of lines 112 and 115 *)

Section SortFacts.
Variable A : Type.
Variable cmp : A -> A -> Z.

Lemma insert_perm x l : Permutation (JS.insert cmp x l) (x :: l).
Proof.
  induction l as [|y ys IH]; simpl.
  - apply Permutation_refl.
  - destruct (cmp x y <=? 0)%Z.
    + apply Permutation_refl.
    + eapply perm_trans; [apply perm_skip, IH | apply perm_swap].
Qed.

Lemma sort_perm l : Permutation (JS.sort cmp l) l.
Proof.
  induction l as [|x xs IH]; simpl.
  - apply perm_nil.
  - eapply perm_trans; [apply insert_perm | now apply perm_skip].
Qed.

Section Sorted.
Hypothesis cmp_trans :
  forall a b c, (cmp a b <= 0)%Z -> (cmp b c <= 0)%Z -> (cmp a c <= 0)%Z.
Hypothesis cmp_total :
  forall a b, (cmp a b <= 0)%Z \/ (cmp b a <= 0)%Z.

Lemma insert_sorted x l :
  StronglySorted (JS.ordered cmp) l -> StronglySorted (JS.ordered cmp) (JS.insert cmp x l).
Proof.
  induction 1 as [|y ys Hs IH Hy]; simpl.
  - repeat constructor.
  - destruct (Z.leb_spec (cmp x y) 0) as [Hle|Hgt].
    + constructor; [now constructor|].
      constructor; [assumption|].
      eapply Forall_impl; [|exact Hy].
      intros z Hz. now apply cmp_trans with y.
    + constructor; [assumption|].
      assert (Hyx : JS.ordered cmp y x)
        by (destruct (cmp_total x y); [lia | assumption]).
      eapply Permutation_Forall;
        [apply Permutation_sym, insert_perm|].
      now constructor.
Qed.

Lemma sort_sorted l : StronglySorted (JS.ordered cmp) (JS.sort cmp l).
Proof.
  induction l as [|x xs IH]; simpl; [constructor | now apply insert_sorted].
Qed.
End Sorted.

Section Stable.
Variable K : Type.
Variable key : A -> K.
Variable keyIs : K -> A -> bool.
Hypothesis keyIs_spec : forall k a, keyIs k a = true <-> key a = k.
Hypothesis cmp_same_key :
  forall a b, key a = key b -> (cmp a b <= 0)%Z.

Lemma insert_stable k x l :
  filter (keyIs k) (JS.insert cmp x l) = filter (keyIs k) (x :: l).
Proof.
  induction l as [|y ys IH]; [reflexivity|].
  cbn [JS.insert]. destruct (Z.leb_spec (cmp x y) 0) as [Hle|Hgt];
    [reflexivity|].
  cbn [filter] in *. rewrite IH.
  destruct (keyIs k x) eqn:Hx; [|reflexivity].
  destruct (keyIs k y) eqn:Hy; [|reflexivity].
  apply keyIs_spec in Hx, Hy.
  assert (cmp x y <= 0)%Z by (apply cmp_same_key; congruence). lia.
Qed.

Lemma sort_stable k l :
  filter (keyIs k) (JS.sort cmp l) = filter (keyIs k) l.
Proof.
  induction l as [|x xs IH]; [reflexivity|].
  cbn [JS.sort]. rewrite insert_stable. cbn [filter]. now rewrite IH.
Qed.
End Stable.

End SortFacts.

Section OrderFacts.
Context {World : Type} {C : Collaborators World}.

Lemma reportOrder_perm options l : Permutation (reportOrder options l) l.
Proof.
  unfold reportOrder.
  destruct (orderByIs options "depender"); [apply sort_perm|].
  destruct (orderByIs options "dependee"); [apply sort_perm|].
  apply Permutation_refl.
Qed.

Lemma reportOrder_none options l :
  orderByIs options "depender" = false ->
  orderByIs options "dependee" = false ->
  reportOrder options l = l.
Proof. unfold reportOrder. now intros -> ->. Qed.

Lemma filter_nil_perm {A} (f : A -> bool) (l l' : list A) :
  Permutation l l' -> filter f l = [] -> filter f l' = [].
Proof.
  intros Hp Hl.
  destruct (filter f l') as [|x xs] eqn:E; [reflexivity|].
  assert (Hin : In x (filter f l')) by (rewrite E; now left).
  apply filter_In in Hin as [Hin Hf].
  apply Permutation_sym in Hp.
  assert (Hin' : In x (filter f l))
    by (apply filter_In; split; [now apply (Permutation_in _ Hp)|assumption]).
  rewrite Hl in Hin'. destruct Hin'.
Qed.

End OrderFacts.

(** ** The loop *)

Ltac simpl_state :=
  cbn [finalState countedState installedState say
         world recursiveCount console].

Tactic Notation "simpl_state" "in" hyp(H) :=
  cbn [finalState countedState installedState say
         world recursiveCount console] in H.

Section Loop.
Context {World : Type} {C : Collaborators World}.

Lemma installingSteps_app a b :
  installingSteps (a ++ b) = installingSteps a + installingSteps b.
Proof. unfold installingSteps. now rewrite filter_app, length_app. Qed.

Lemma installingSteps_status events :
  forallb isStatus events = true -> installingSteps events = 0.
Proof.
  unfold installingSteps. induction events as [|e l IH]; [reflexivity|].
  simpl. intros H. apply andb_true_iff in H as [He Hl].
  destruct e; try discriminate. simpl. auto.
Qed.

Lemma installingSteps_search nosolution all :
  installingSteps (searchEvents nosolution all) = 0.
Proof.
  unfold searchEvents. rewrite !installingSteps_app.
  assert (H : installingSteps
                (map (fun r => Err (noSolutionLine r all)) nosolution) = 0)
    by (unfold installingSteps; induction nosolution; simpl; auto).
  rewrite H. now destruct (0 <? List.length nosolution)%nat.
Qed.

Lemma installingSteps_install commandLines :
  installingSteps (installEvents commandLines) = 1.
Proof.
  unfold installEvents, installingSteps. simpl. f_equal.
  induction commandLines as [|c l IH]; simpl; auto.
Qed.

(** The checker stops: a budget of [5 - recursiveCount] calls, and one
    call at least, is enough. *)
Lemma checkPeerDependencies_terminates
    (packageManager : string) (options : CliOptions) :
  forall (budget : nat) (s : State World),
    0 < budget -> 5 - recursiveCount s <= budget ->
    exists r, checkPeerDependencies budget packageManager options s = Some r.
Proof.
  induction budget as [|budget IH]; intros s Hpos Hbudget; [lia|].
  destruct (status_of_pass options s) as [status [_ [_ Hstatus]]].
  rewrite (@checkPeerDependencies_pass _ _ budget packageManager options s status Hstatus).
  cbv zeta.
  destruct (passProblems (world s) options); [eauto|].
  destruct (install options);
    [|destruct (findSolutions_opt options); eauto].
  destruct (passCommands packageManager (world s) options) as [|c cs];
    [eauto|].
  rewrite installPeerDependencies_spec. cbv zeta.
  match goal with |- context [newUnsatisfied ?w ?o ?n] =>
    destruct (newUnsatisfied w o n) end; [eauto|].
  cbn [installedState say recursiveCount].
  destruct (Nat.ltb_spec (S (recursiveCount s)) 5) as [Hlt|Hge]; [|eauto].
  apply IH; cbn [countedState installedState say recursiveCount]; lia.
Qed.

(** A larger budget changes nothing. *)
Lemma checkPeerDependencies_budget
    (packageManager : string) (options : CliOptions) :
  forall (budget budget' : nat) (s : State World) r,
    checkPeerDependencies budget packageManager options s = Some r ->
    budget <= budget' ->
    checkPeerDependencies budget' packageManager options s = Some r.
Proof.
  induction budget as [|budget IH]; intros budget' s r Hr Hle;
    [discriminate|].
  destruct budget' as [|budget']; [lia|].
  destruct (status_of_pass options s) as [status [_ [_ Hstatus]]].
  rewrite (@checkPeerDependencies_pass _ _ budget packageManager options s status Hstatus) in Hr.
  rewrite (@checkPeerDependencies_pass _ _ budget' packageManager options s status Hstatus).
  cbv zeta in *.
  destruct (passProblems (world s) options); [assumption|].
  destruct (install options); [|assumption].
  destruct (passCommands packageManager (world s) options) as [|c cs];
    [assumption|].
  rewrite installPeerDependencies_spec in *. cbv zeta in *.
  match goal with |- context [newUnsatisfied ?w ?o ?n] =>
    destruct (newUnsatisfied w o n) end; [assumption|].
  destruct (S (recursiveCount _) <? 5)%nat; [|assumption].
  apply IH with (budget' := budget') in Hr; [assumption | lia].
Qed.

(** The passes that install until the counter reaches 5. *)
Lemma loop_reaches_limit (packageManager : string) (options : CliOptions) :
  forall (m budget : nat) (s : State World),
    recursiveCount s + S m = 5 ->
    S m <= budget ->
    keepsInstalling packageManager options (world s) (S m) ->
    exists s',
      checkPeerDependencies budget packageManager options s
      = Some (Exit 5 s')
      /\ recursiveCount s' = 5
      /\ world s' = passWorld packageManager options (world s) (S m)
      /\ installingSteps (console s') = installingSteps (console s) + S m
      /\ exists before,
          console s' = before ++ [Err "Recursion limit reached (5)"].
Proof.
  induction m as [|m IH]; intros budget s Hcount Hbudget Hkeeps;
    (destruct budget as [|budget]; [lia|]);
    destruct (status_of_pass options s) as [status [Hstatus [_ Hreport]]];
    rewrite (@checkPeerDependencies_pass _ _ budget packageManager
               options s status Hreport); cbv zeta;
    destruct (Hkeeps 0 ltac:(lia)) as [[Hproblems [Hinstall Hcommands]] Hnew];
    cbn [passWorld] in Hproblems, Hinstall, Hcommands, Hnew;
    unfold passNewUnsatisfied, afterInstall in Hnew;
    (destruct (passProblems (world s) options) as [|p ps];
       [congruence|]);
    rewrite Hinstall;
    (destruct (passCommands packageManager (world s) options) as [|c cs] eqn:Ec;
       [congruence|]);
    rewrite installPeerDependencies_spec; cbv zeta;
    cbn [installedState say world recursiveCount console];
    (destruct (newUnsatisfied (execAll (c :: cs) (world s)) options
                 (passNoSolution (world s) options)) as [|d ds] eqn:Enew;
       [congruence|]).
  - (* the fifth attempt *)
    assert (Hrc : recursiveCount s = 4) by lia. rewrite Hrc.
    change (5 <? 5)%nat with false. cbv iota.
    eexists. split; [reflexivity|].
    cbn [countedState installedState say recursiveCount world console
           passWorld].
    unfold afterInstall. rewrite Ec.
    split; [lia|]. split; [reflexivity|]. split.
    + rewrite !installingSteps_app, installingSteps_install,
        installingSteps_search, (installingSteps_status _ Hstatus).
      cbn. lia.
    + eexists. reflexivity.
  - (* an earlier attempt: the checker is called again *)
    assert (Hlt : (S (recursiveCount s) <? 5)%nat = true)
      by (apply Nat.ltb_lt; lia).
    rewrite Hlt.
    match goal with |- context [checkPeerDependencies budget _ _ ?s2] =>
      destruct (IH budget s2) as [s' [Hrun [Hfive [Hworld [Hsteps Hlast]]]]]
    end.
    + cbn [countedState installedState say recursiveCount]. lia.
    + lia.
    + cbn [countedState installedState say world]. intros k Hk.
      specialize (Hkeeps (S k) ltac:(lia)). cbn [passWorld] in Hkeeps.
      unfold afterInstall in Hkeeps. now rewrite Ec in Hkeeps.
    + exists s'. split; [exact Hrun|]. split; [exact Hfive|].
      cbn [countedState installedState say world console] in Hworld, Hsteps.
      split; [|split; [|exact Hlast]].
      * rewrite Hworld. cbn [passWorld]. unfold afterInstall.
        now rewrite Ec.
      * rewrite Hsteps.
        rewrite !installingSteps_app, installingSteps_install,
          installingSteps_search, (installingSteps_status _ Hstatus).
        cbn. lia.
Qed.

(** C1 (amended). In a fresh process, when each of the five passes
    finds a problem, is asked to install, gets an install command and
    finds a new unsatisfied record after installing, the checker leaves
    with exit code 5 at the fifth attempt to recurse: it has run the
    Installing step five times, never a sixth. *)
Theorem C1_recursion_limit_after_five_installs
    (packageManager : string) (options : CliOptions) (w : World)
    (budget : nat)
    (Hbudget : 5 <= budget)
    (Hkeeps : keepsInstalling packageManager options w 5) :
  exists s',
    checkPeerDependencies budget packageManager options (initial w)
    = Some (Exit 5 s')
    /\ exitStatus (termination (Exit (A := unit) 5 s')) = 5%Z
    /\ recursiveCount s' = 5
    /\ world s' = passWorld packageManager options w 5
    /\ installingSteps (console s') = 5
    /\ exists before,
        console s' = before ++ [Err "Recursion limit reached (5)"].
Proof.
  destruct (@loop_reaches_limit packageManager options 4 budget (initial w))
    as [s' [Hrun [Hfive [Hworld [Hsteps Hlast]]]]];
    [reflexivity | lia | exact Hkeeps |].
  exists s'. repeat split; try assumption.
Qed.

(** C5. When a pass reaches the Installing step and, after the commands,
    no gathered record is unsatisfied apart from the known no-solution
    problems, the checker returns: one Installing step more on the
    console, the recursion counter untouched, and the same result with a
    budget that allows no further call. *)
Theorem C5_install_then_nothing_new_returns
    (packageManager : string) (options : CliOptions) (s : State World)
    (budget : nat)
    (Hreaches : reachesInstall packageManager options (world s))
    (Hnone : passNewUnsatisfied packageManager (world s) options = []) :
  exists s',
    checkPeerDependencies (S budget) packageManager options s
    = Some (Ret tt s')
    /\ checkPeerDependencies 1 packageManager options s = Some (Ret tt s')
    /\ exitStatus (termination (Ret tt s')) = 0%Z
    /\ world s' = afterInstall packageManager options (world s)
    /\ recursiveCount s' = recursiveCount s
    /\ installingSteps (console s') = installingSteps (console s) + 1.
Proof.
  destruct Hreaches as [Hproblems [Hinstall Hcommands]].
  unfold passNewUnsatisfied, afterInstall in Hnone.
  destruct (status_of_pass options s) as [status [Hstatus [_ Hreport]]].
  rewrite (@checkPeerDependencies_pass _ _ budget packageManager
             options s status Hreport).
  rewrite (@checkPeerDependencies_pass _ _ 0 packageManager
             options s status Hreport).
  cbv zeta.
  destruct (passProblems (world s) options) as [|p ps]; [congruence|].
  rewrite Hinstall.
  destruct (passCommands packageManager (world s) options) as [|c cs] eqn:Ec;
    [congruence|].
  rewrite !installPeerDependencies_spec. cbv zeta.
  cbn [installedState say world recursiveCount console].
  rewrite Hnone.
  eexists. split; [reflexivity|]. split; [reflexivity|].
  cbn [installedState say world recursiveCount console].
  unfold afterInstall. rewrite Ec.
  repeat split; try reflexivity.
  rewrite !installingSteps_app, installingSteps_install,
    installingSteps_search, (installingSteps_status _ Hstatus).
  destruct (passNoSolution (world s) options); cbn; lia.
Qed.

(** C6. When no classified record is both unsatisfied and not linked
    through yalc, the checker writes the all-satisfied line last and
    returns, so that the process leaves with status 0; before that line it
    writes status lines only. *)
Theorem C6_no_problem_reports_success
    (packageManager : string) (options : CliOptions) (s : State World)
    (budget : nat)
    (Hnone : forall dep,
        In dep (getAllNestedPeerDependencies (world s) options) ->
        semverSatisfies dep = false -> isYalc dep = true) :
  exists status,
    forallb isStatus status = true
    /\ checkPeerDependencies (S budget) packageManager options s
       = Some (Ret tt
                 (say s (status
                         ++ [Log "  ✅  All peer dependencies are met"])))
    /\ exitStatus
         (termination
            (Ret tt (say s (status
                            ++ [Log "  ✅  All peer dependencies are met"]))))
       = 0%Z.
Proof.
  destruct (status_of_pass options s) as [status [Hstatus [_ Hreport]]].
  exists status. split; [assumption|]. split; [|reflexivity].
  rewrite (@checkPeerDependencies_pass _ _ budget packageManager
             options s status Hreport). cbv zeta.
  assert (Hempty : passProblems (world s) options = []).
  { unfold passProblems, passRecords.
    apply (filter_nil_perm isProblem
             (Permutation_sym (reportOrder_perm options _))).
    destruct (filter isProblem
                (getAllNestedPeerDependencies (world s) options))
      as [|d ds] eqn:E; [reflexivity|].
    assert (Hin : In d (filter isProblem
                          (getAllNestedPeerDependencies (world s) options)))
      by (rewrite E; now left).
    apply filter_In in Hin as [Hin Hp]. unfold isProblem in Hp.
    apply andb_true_iff in Hp as [Hs Hy].
    apply negb_true_iff in Hs, Hy.
    rewrite (Hnone d Hin Hs) in Hy. discriminate. }
  rewrite Hempty. now rewrite say_say.
Qed.

(** ** What a run writes *)

Lemma no_status_search nosolution all :
  filter isStatus (searchEvents nosolution all) = [].
Proof.
  unfold searchEvents. rewrite !filter_app.
  assert (H : filter isStatus
                (map (fun r => Err (noSolutionLine r all)) nosolution) = [])
    by (induction nosolution; simpl; auto).
  rewrite H. now destruct (0 <? List.length nosolution)%nat.
Qed.

Lemma no_status_install commandLines :
  filter isStatus (installEvents commandLines) = [].
Proof.
  unfold installEvents. simpl.
  induction commandLines as [|c l IH]; simpl; auto.
Qed.

Lemma no_status_listing commandLines :
  filter isStatus (listingEvents commandLines) = [].
Proof.
  unfold listingEvents. destruct commandLines as [|c l]; [reflexivity|].
  rewrite !filter_app.
  assert (H : forall l', filter isStatus (map Log l') = [])
    by (induction l'; simpl; auto).
  now rewrite H.
Qed.

(** A run only adds to the console; what it adds holds the lines of
    [findSolutions] for the pass it starts with, and no status line when
    [orderBy] names neither order. *)
Lemma console_grows (packageManager : string) (options : CliOptions) :
  forall (budget : nat) (s : State World) r,
    checkPeerDependencies budget packageManager options s = Some r ->
    exists events,
      console (finalState r) = console s ++ events
      /\ (orderByIs options "depender" = false ->
          orderByIs options "dependee" = false ->
          filter isStatus events = [])
      /\ (passProblems (world s) options <> [] ->
          install options = true \/ findSolutions_opt options = true ->
          forall x, In x (passNoSolution (world s) options) ->
                    In (Err (noSolutionLine x (passRecords (world s) options)))
                      events).
Proof.
  induction budget as [|budget IH]; intros s r Hr; [discriminate|].
  destruct (status_of_pass options s) as [status [_ [Hquiet Hreport]]].
  rewrite (@checkPeerDependencies_pass _ _ budget packageManager
             options s status Hreport) in Hr.
  cbv zeta in Hr.
  assert (Hdiag : forall x rest,
             In x (passNoSolution (world s) options) ->
             In (Err (noSolutionLine x (passRecords (world s) options)))
               (status
                ++ searchEvents (passNoSolution (world s) options)
                     (passRecords (world s) options) ++ rest)).
  { intros x rest Hx. apply in_or_app. right. apply in_or_app. left.
    unfold searchEvents. apply in_or_app. right. apply in_or_app. left.
    now apply (in_map (fun r => Err (noSolutionLine r _))). }
  destruct (passProblems (world s) options) as [|p ps] eqn:Eproblems.
  - inversion Hr; subst. exists (status ++ [Log "  ✅  All peer dependencies are met"]).
    simpl_state. rewrite app_assoc.
    split; [reflexivity|]. split; [|congruence].
    intros H1 H2. now rewrite (Hquiet H1 H2).
  - destruct (install options) eqn:Einstall.
    + destruct (passCommands packageManager (world s) options)
        as [|c cs] eqn:Ec.
      * inversion Hr; subst.
        exists (status ++ searchEvents (passNoSolution (world s) options)
                            (passRecords (world s) options) ++ []).
        simpl_state. rewrite app_nil_r, app_assoc.
        split; [reflexivity|]. split.
        -- intros H1 H2. rewrite (Hquiet H1 H2). apply no_status_search.
        -- intros _ _ x Hx. rewrite <- (app_nil_r (searchEvents _ _)).
           now apply Hdiag.
      * rewrite installPeerDependencies_spec in Hr. cbv zeta in Hr.
        simpl_state in Hr.
        destruct (newUnsatisfied (execAll (c :: cs) (world s)) options
                    (passNoSolution (world s) options)) as [|d ds].
        -- inversion Hr; subst. eexists.
           simpl_state. rewrite <- !app_assoc.
           split; [reflexivity|]. split.
           ++ intros H1 H2. rewrite (Hquiet H1 H2). cbn [app].
              rewrite !filter_app, no_status_search, no_status_install.
              now destruct (passNoSolution (world s) options).
           ++ intros _ _ x Hx. now apply Hdiag.
        -- destruct (S (recursiveCount s) <? 5)%nat.
           ++ apply IH in Hr as [events [Hevents [Hq _]]].
              simpl_state in Hevents.
              eexists. rewrite Hevents, <- !app_assoc.
              split; [reflexivity|]. split.
              ** intros H1 H2. rewrite (Hquiet H1 H2). cbn [app].
                 rewrite !filter_app, no_status_search, no_status_install.
                 cbn [app filter isStatus]. now rewrite (Hq H1 H2).
              ** intros _ _ x Hx. now apply Hdiag.
           ++ inversion Hr; subst. eexists.
              simpl_state.
              rewrite <- !app_assoc.
              split; [reflexivity|]. split.
              ** intros H1 H2. rewrite (Hquiet H1 H2). cbn [app].
                 now rewrite !filter_app, no_status_search, no_status_install.
              ** intros _ _ x Hx. now apply Hdiag.
    + destruct (findSolutions_opt options) eqn:Efind.
      * inversion Hr; subst. eexists.
        simpl_state. rewrite <- !app_assoc.
        split; [reflexivity|]. split.
        -- intros H1 H2. rewrite (Hquiet H1 H2). cbn [app].
           now rewrite !filter_app, no_status_search, no_status_listing.
        -- intros _ _ x Hx. now apply Hdiag.
      * inversion Hr; subst. exists (status ++ [hintEvent]).
        simpl_state. rewrite app_assoc.
        split; [reflexivity|]. split.
        -- intros H1 H2. now rewrite (Hquiet H1 H2).
        -- intros _ [H|H]; discriminate.
Qed.

(** C2 (amended). When a pass searches for solutions and some problem
    has none, every result of the run has, on the console, the
    diagnostic of each such problem; and when no Installing step
    follows (install was not requested, or no install command came
    out), the process leaves with exit code 1, which is neither 0 nor
    the code 5 of the recursion limit. *)
Theorem C2_no_solution_diagnostics_and_exit_1
    (packageManager : string) (options : CliOptions) (s : State World)
    (budget : nat)
    (Hproblems : passProblems (world s) options <> [])
    (Hsearch : install options = true \/ findSolutions_opt options = true)
    (Hnosolution : passNoSolution (world s) options <> []) :
  (forall r,
      checkPeerDependencies (S budget) packageManager options s = Some r ->
      forall x, In x (passNoSolution (world s) options) ->
                In (Err (noSolutionLine x (passRecords (world s) options)))
                  (console (finalState r)))
  /\ (install options = false
      \/ passCommands packageManager (world s) options = [] ->
      exists s',
        checkPeerDependencies (S budget) packageManager options s
        = Some (Exit 1 s')
        /\ exitStatus (termination (Exit (A := unit) 1 s')) = 1%Z
        /\ exitStatus (termination (Exit (A := unit) 1 s')) <> 0%Z
        /\ exitStatus (termination (Exit (A := unit) 1 s')) <> 5%Z).
Proof.
  split.
  - intros r Hr x Hx.
    destruct (console_grows _ _ _ _ Hr) as [events [Hevents [_ Hdiag]]].
    rewrite Hevents. apply in_or_app. right. now apply Hdiag.
  - intros Hstay.
    destruct (status_of_pass options s) as [status [_ [_ Hreport]]].
    rewrite (@checkPeerDependencies_pass _ _ budget packageManager
               options s status Hreport). cbv zeta.
    destruct (passProblems (world s) options) as [|p ps]; [congruence|].
    destruct (install options) eqn:Einstall.
    + destruct Hstay as [Hno|Hno]; [discriminate|]. rewrite Hno.
      eexists. split; [reflexivity|]. cbn. repeat split; discriminate.
    + destruct Hsearch as [Hyes|Hyes]; [discriminate|]. rewrite Hyes.
      eexists. split; [reflexivity|]. cbn. repeat split; discriminate.
Qed.

(** C10. When [orderBy] is neither [depender] nor [dependee], no run
    writes a status line, the array stays in the order gathered, and a
    call goes on as it does after the report: success when no record is
    a problem, otherwise the search, the Installing step or exit
    code 1. *)
Theorem C10_no_order_no_status_line
    (packageManager : string) (options : CliOptions)
    (Hdepender : orderByIs options "depender" = false)
    (Hdependee : orderByIs options "dependee" = false) :
  (forall (budget : nat) (s : State World) r,
      checkPeerDependencies budget packageManager options s = Some r ->
      exists events,
        console (finalState r) = console s ++ events
        /\ filter isStatus events = [])
  /\ (forall (budget : nat) (s : State World),
        let w := world s in
        let all := getAllNestedPeerDependencies w options in
        let searched :=
          say s (searchEvents (passNoSolution w options) all) in
        passRecords w options = all
        /\ passProblems w options = filter isProblem all
        /\ checkPeerDependencies (S budget) packageManager options s
           = match filter isProblem all with
             | [] =>
                 Some (Ret tt
                         (say s [Log "  ✅  All peer dependencies are met"]))
             | _ =>
                 if install options then
                   match passCommands packageManager w options with
                   | [] => Some (Exit 1 searched)
                   | commandLines =>
                       installPeerDependencies
                         (checkPeerDependencies budget)
                         commandLines options (passNoSolution w options)
                         packageManager searched
                   end
                 else if findSolutions_opt options then
                   Some (Exit 1
                           (say searched
                              (listingEvents
                                 (passCommands packageManager w options))))
                 else Some (Exit 1 (say s [hintEvent]))
             end).
Proof.
  split.
  - intros budget s r Hr.
    destruct (console_grows _ _ _ _ Hr) as [events [Hevents [Hquiet _]]].
    exists events. auto.
  - intros budget s w all searched.
    assert (Hrecords : passRecords w options = all)
      by (unfold passRecords; now apply reportOrder_none).
    assert (Hfilter : passProblems w options = filter isProblem all)
      by (unfold passProblems; now rewrite Hrecords).
    split; [assumption|]. split; [assumption|].
    destruct (status_of_pass options s) as [status [_ [Hquiet Hreport]]].
    rewrite (@checkPeerDependencies_pass _ _ budget packageManager
               options s status Hreport). cbv zeta.
    rewrite (Hquiet Hdepender Hdependee), say_nil.
    fold w. rewrite Hrecords, Hfilter. reflexivity.
Qed.

End Loop.

(** ** The ranges of a diagnostic *)

Lemma includes_In (acc : list string) (x : string) :
  JS.includes acc x = true <-> In x acc.
Proof.
  unfold JS.includes. rewrite existsb_exists. split.
  - intros [y [Hy Heq]]. apply String.eqb_eq in Heq. now subst.
  - intros H. exists x. split; [assumption | apply String.eqb_refl].
Qed.

Lemma firstSeen_In (l : list string) (x : string) :
  In x (firstSeen l) <-> In x l.
Proof.
  induction l as [|y l IH]; simpl; [tauto|].
  rewrite filter_In, IH. split.
  - intros [H|[H _]]; auto.
  - intros [H|H]; [now left|].
    destruct (String.eqb_spec x y) as [->|Hne]; [now left|].
    right. split; [assumption | reflexivity].
Qed.

Lemma firstSeen_NoDup (l : list string) : NoDup (firstSeen l).
Proof.
  induction l as [|y l IH]; simpl; constructor.
  - rewrite filter_In. intros [_ H]. now rewrite String.eqb_refl in H.
  - now apply NoDup_filter.
Qed.

Lemma filter_filter {A} (p q : A -> bool) (l : list A) :
  filter p (filter q l) = filter (fun y => p y && q y) l.
Proof.
  induction l as [|y l IH]; simpl; [reflexivity|].
  destruct (q y); simpl; rewrite ?andb_true_r, ?andb_false_r;
    [destruct (p y)|]; now rewrite IH.
Qed.

(** The fold of lines 66-67, started from any array [acc]. *)
Lemma ranges_fold (deps : list Dependency) :
  forall acc : list string,
    fold_left
      (fun acc dep =>
         if JS.includes acc (version dep) then acc else acc ++ [version dep])
      deps acc
    = acc ++ filter (fun y => negb (JS.includes acc y))
               (firstSeen (map version deps)).
Proof.
  induction deps as [|d deps IH]; intros acc; simpl.
  - now rewrite app_nil_r.
  - destruct (JS.includes acc (version d)) eqn:Hin; simpl.
    + rewrite IH. f_equal. rewrite filter_filter. apply filter_ext.
      intros y. destruct (String.eqb_spec y (version d)) as [->|Hne]; simpl.
      * now rewrite Hin.
      * now rewrite andb_true_r.
    + rewrite IH, <- app_assoc. simpl. do 2 f_equal.
      rewrite filter_filter. apply filter_ext. intros y.
      unfold JS.includes. rewrite existsb_app. simpl.
      now rewrite orb_false_r, negb_orb.
Qed.

Lemma peerDepRanges_firstSeen (n : string) (all : list Dependency) :
  peerDepRanges n all
  = firstSeen (map version (filter (fun dep => (name dep =? n)%string) all)).
Proof.
  unfold peerDepRanges. rewrite ranges_fold.
  assert (H : forall l : list string,
             filter (fun y => negb (JS.includes [] y)) l = l)
    by (induction l as [|y l IH];
        unfold JS.includes in *; simpl in *; congruence).
  now rewrite H.
Qed.

Lemma noSolutionLine_text (x : Resolution) (all : list Dependency) :
  noSolutionLine x all
  = ("  ❌  Unable to find a version of " ++ name (problem x)
     ++ " that satisfies the following peerDependencies: "
     ++ JS.join " and " (peerDepRanges (name (problem x)) all))%string.
Proof.
  unfold noSolutionLine. cbv zeta. rewrite !append_assoc. reflexivity.
Qed.

Section Diagnostics.
Context {World : Type} {C : Collaborators World}.

Lemma classified_name_version (w : World) (n : string) (l : list Dependency) :
  map version
    (filter (fun dep => (name dep =? n)%string)
       (map (applySemverInformation w) l))
  = map version (filter (fun dep => (name dep =? n)%string) l).
Proof.
  induction l as [|d l IH]; simpl; [reflexivity|].
  destruct (name d =? n)%string; simpl; now rewrite IH.
Qed.

(** C8 (amended). The diagnostic of a no-solution problem lists the
    ranges declared for its package by the gathered records, each once,
    in the order of their first appearance in the array as the report
    left it: sorted by the report key when [orderBy] is [depender] or
    [dependee], and in the order gathered otherwise. *)
Theorem C8_diagnostic_lists_each_range_once
    (packageManager : string) (options : CliOptions) (s : State World)
    (budget : nat) (r : Res World unit) (x : Resolution)
    (Hproblems : passProblems (world s) options <> [])
    (Hsearch : install options = true \/ findSolutions_opt options = true)
    (Hx : In x (passNoSolution (world s) options))
    (Hr : checkPeerDependencies (S budget) packageManager options s = Some r) :
  let n := name (problem x) in
  let records := passRecords (world s) options in
  let ranges := peerDepRanges n records in
  In (Err ("  ❌  Unable to find a version of " ++ n
           ++ " that satisfies the following peerDependencies: "
           ++ JS.join " and " ranges))
    (console (finalState r))
  /\ NoDup ranges
  /\ (forall v,
        In v ranges
        <-> exists dep, In dep (gatherPeerDependencies (world s) options)
                        /\ name dep = n /\ version dep = v)
  /\ ranges
     = firstSeen
         (map version (filter (fun dep => (name dep =? n)%string) records))
  /\ records
     = reportOrder options (getAllNestedPeerDependencies (world s) options)
  /\ (orderByIs options "depender" = false ->
      orderByIs options "dependee" = false ->
      ranges
      = firstSeen
          (map version
             (filter (fun dep => (name dep =? n)%string)
                (gatherPeerDependencies (world s) options)))).
Proof.
  intros n records ranges.
  assert (Hranges : ranges
                    = firstSeen
                        (map version
                           (filter (fun dep => (name dep =? n)%string) records)))
    by apply peerDepRanges_firstSeen.
  split.
  - destruct (console_grows _ _ _ _ Hr) as [events [Hevents [_ Hdiag]]].
    rewrite Hevents. apply in_or_app. right.
    pose proof (Hdiag Hproblems Hsearch x Hx) as Hline.
    rewrite noSolutionLine_text in Hline. exact Hline.
  - split; [rewrite Hranges; apply firstSeen_NoDup|].
    split; [|split; [assumption|split; [reflexivity|]]].
    + intros v. rewrite Hranges, firstSeen_In, in_map_iff. split.
      * intros [dep [Hv Hdep]]. apply filter_In in Hdep as [Hin Hname].
        apply String.eqb_eq in Hname.
        apply (Permutation_in _ (reportOrder_perm options _)) in Hin.
        unfold getAllNestedPeerDependencies in Hin.
        apply in_map_iff in Hin as [raw [Hraw Hin]]. subst dep.
        exists raw. auto.
      * intros [raw [Hin [Hname Hv]]].
        exists (applySemverInformation (world s) raw). split; [exact Hv|].
        apply filter_In. split.
        -- apply (Permutation_in _
                    (Permutation_sym (reportOrder_perm options _))).
           unfold getAllNestedPeerDependencies. now apply in_map.
        -- simpl. now apply String.eqb_eq.
    + intros Hdepender Hdependee. rewrite Hranges. unfold records, passRecords.
      rewrite (reportOrder_none _ _ Hdepender Hdependee).
      unfold getAllNestedPeerDependencies.
      now rewrite classified_name_version.
Qed.

End Diagnostics.

(** ** The order of the report *)

Section Ordering.
Context {World : Type} {C : Collaborators World}.

Hypothesis localeCompare_trans :
  forall a b c : string,
    (localeCompare a b <= 0)%Z -> (localeCompare b c <= 0)%Z ->
    (localeCompare a c <= 0)%Z.
Hypothesis localeCompare_total :
  forall a b : string,
    (localeCompare a b <= 0)%Z \/ (localeCompare b a <= 0)%Z.

Lemma localeCompare_refl (a : string) : (localeCompare a a <= 0)%Z.
Proof. now destruct (localeCompare_total a a). Qed.

(** C9. With [orderBy = depender] the records are reported in the order
    of a stable sort by the key [depender ++ name] under
    [localeCompare]: a permutation of the records, each key before the
    keys that compare after it, and records of equal keys in the order
    gathered; with [orderBy = dependee] the same holds for the key
    [name ++ depender]. *)
Theorem C9_report_order_is_a_stable_sort
    (options : CliOptions) (l : list Dependency) (s : State World) :
  (orderByIs options "depender" = true ->
   exists sorted status,
     reportStatus options l s = Some (Ret sorted (say s status))
     /\ forEach sorted
          (fun dep => reportPeerDependencyStatusByDepender dep options) s
        = Some (Ret tt (say s status))
     /\ Permutation sorted l
     /\ StronglySorted
          (fun a b =>
             (localeCompare (depender a ++ name a) (depender b ++ name b)
              <= 0)%Z)
          sorted
     /\ forall key,
         filter (fun dep => (depender dep ++ name dep =? key)%string) sorted
         = filter (fun dep => (depender dep ++ name dep =? key)%string) l)
  /\ (orderByIs options "depender" = false ->
      orderByIs options "dependee" = true ->
      exists sorted status,
        reportStatus options l s = Some (Ret sorted (say s status))
        /\ forEach sorted
             (fun dep => reportPeerDependencyStatusByDependee dep options) s
           = Some (Ret tt (say s status))
        /\ Permutation sorted l
        /\ StronglySorted
             (fun a b =>
                (localeCompare (name a ++ depender a) (name b ++ depender b)
                 <= 0)%Z)
             sorted
        /\ forall key,
            filter (fun dep => (name dep ++ depender dep =? key)%string) sorted
            = filter (fun dep => (name dep ++ depender dep =? key)%string) l).
Proof.
  split.
  - intros Hdepender.
    destruct (forEach_status (World := World)
                (fun dep => reportPeerDependencyStatusByDepender dep options)
                (fun dep => reportByDepender_status dep options)
                (JS.sort byDepender l)) as [status [_ Hstatus]].
    exists (JS.sort byDepender l), status.
    split; [|split; [apply Hstatus|split; [apply sort_perm|split]]].
    + unfold reportStatus. rewrite Hdepender. unfold bind.
      now rewrite Hstatus.
    + apply (@sort_sorted _ byDepender); unfold byDepender.
      * intros a b c. apply localeCompare_trans.
      * intros a b. apply localeCompare_total.
    + intros key.
      apply (@sort_stable _ byDepender _
               (fun dep => (depender dep ++ name dep)%string)
               (fun k dep => (depender dep ++ name dep =? k)%string)).
      * intros k a. apply String.eqb_eq.
      * intros a b Hkey. unfold byDepender. rewrite Hkey.
        apply localeCompare_refl.
  - intros Hdepender Hdependee.
    destruct (forEach_status (World := World)
                (fun dep => reportPeerDependencyStatusByDependee dep options)
                (fun dep => reportByDependee_status dep options)
                (JS.sort byDependee l)) as [status [_ Hstatus]].
    exists (JS.sort byDependee l), status.
    split; [|split; [apply Hstatus|split; [apply sort_perm|split]]].
    + unfold reportStatus. rewrite Hdepender, Hdependee. unfold bind.
      now rewrite Hstatus.
    + apply (@sort_sorted _ byDependee); unfold byDependee.
      * intros a b c. apply localeCompare_trans.
      * intros a b. apply localeCompare_total.
    + intros key.
      apply (@sort_stable _ byDependee _
               (fun dep => (name dep ++ depender dep)%string)
               (fun k dep => (name dep ++ depender dep =? k)%string)).
      * intros k a. apply String.eqb_eq.
      * intros a b Hkey. unfold byDependee. rewrite Hkey.
        apply localeCompare_refl.
Qed.

End Ordering.

(** ** The properties on the sample projects *)

Import Samples Scripted.

Lemma codeUnitCompare_le (a b : string) :
  (codeUnitCompare a b <= 0)%Z <-> String_as_OT.compare a b <> Gt.
Proof.
  unfold codeUnitCompare.
  destruct (String_as_OT.compare a b); split; intros H;
    try lia; try discriminate; congruence.
Qed.

Lemma codeUnitCompare_total (a b : string) :
  (codeUnitCompare a b <= 0)%Z \/ (codeUnitCompare b a <= 0)%Z.
Proof.
  rewrite !codeUnitCompare_le.
  destruct (String_as_OT.compare_spec a b) as [Heq|Hlt|Hgt].
  - left. discriminate.
  - left. discriminate.
  - right. unfold String_as_OT.lt in Hgt. rewrite Hgt. discriminate.
Qed.

Lemma codeUnitCompare_trans (a b c : string) :
  (codeUnitCompare a b <= 0)%Z -> (codeUnitCompare b c <= 0)%Z ->
  (codeUnitCompare a c <= 0)%Z.
Proof.
  rewrite !codeUnitCompare_le. intros Hab Hbc.
  assert (Hirr : forall x, String_as_OT.compare x x <> Gt).
  { intros x Hx.
    destruct (String_as_OT.compare_spec x x) as [_|Hlt|Hlt];
      try discriminate.
    destruct String_as_OT.lt_strorder as [Hi _]. exact (Hi x Hlt). }
  destruct (String_as_OT.compare_spec a b) as [->|Hlt1|_]; [assumption| |congruence].
  destruct (String_as_OT.compare_spec b c) as [<-|Hlt2|_]; [|  |congruence].
  - unfold String_as_OT.lt in Hlt1. rewrite Hlt1. discriminate.
  - assert (Hlt : String_as_OT.lt a c)
      by (destruct String_as_OT.lt_strorder as [_ Ht]; exact (Ht a b c Hlt1 Hlt2)).
    unfold String_as_OT.lt in Hlt. rewrite Hlt. discriminate.
Qed.


Lemma C9_witness :
  exists sorted status,
    reportStatus (C := reactProject) installByDepender
      [reactEdge; brokenEdge; lodashEdge] (initial 0)
    = Some (Ret sorted (say (initial 0) status))
    /\ Permutation sorted [reactEdge; brokenEdge; lodashEdge]
    /\ StronglySorted
         (fun a b =>
            (codeUnitCompare (depender a ++ name a) (depender b ++ name b)
             <= 0)%Z)
         sorted.
Proof.
  destruct (@C9_report_order_is_a_stable_sort _ reactProject
              codeUnitCompare_trans codeUnitCompare_total
              installByDepender [reactEdge; brokenEdge; lodashEdge] (initial 0))
    as [Hdepender _].
  destruct (Hdepender eq_refl) as [sorted [status [H1 [_ [H2 [H3 _]]]]]].
  exists sorted, status. auto.
Defined.

(** A run of [stuckProject]: five Installing steps, then exit code 5. *)
Lemma stuckProject_keepsInstalling :
  keepsInstalling (C := stuckProject) "npm" installOptions 0 5.
Proof.
  intros k Hk.
  do 5 (destruct k as [|k];
        [split; [repeat split; vm_compute; congruence
                | vm_compute; discriminate]|]).
  lia.
Defined.

Lemma C1_witness :
  exists s',
    checkPeerDependencies (C := stuckProject) 5 "npm" installOptions (initial 0)
    = Some (Exit 5 s')
    /\ recursiveCount s' = 5
    /\ installingSteps (console s') = 5.
Proof.
  destruct (@C1_recursion_limit_after_five_installs _ stuckProject
              "npm" installOptions 0 5 (le_n 5) stuckProject_keepsInstalling)
    as [s' [Hrun [_ [Hcount [_ [Hsteps _]]]]]].
  exists s'. auto.
Defined.

(** C1 as stated fails on [yalcAfterInstall]: the one pass that installs
    leaves a new unsatisfied record (the yalc-linked [tool]), no other
    pass reaches the Installing step, and the run returns after one
    Installing step instead of leaving with code 5. *)
Lemma C1_counterexample :
  (forall k,
      reachesInstall (C := yalcAfterInstall) "npm" installOptions
        (passWorld (C := yalcAfterInstall) "npm" installOptions 0 k) ->
      passNewUnsatisfied (C := yalcAfterInstall) "npm"
        (passWorld (C := yalcAfterInstall) "npm" installOptions 0 k)
        installOptions <> [])
  /\ reachesInstall (C := yalcAfterInstall) "npm" installOptions 0
  /\ exists s',
      checkPeerDependencies (C := yalcAfterInstall) 5 "npm" installOptions
        (initial 0) = Some (Ret tt s')
      /\ installingSteps (console s') = 1
      /\ exitStatus (termination (Ret tt s')) = 0%Z.
Proof.
  assert (Hrest : forall k,
             passWorld (C := yalcAfterInstall) "npm" installOptions 1 k = 1).
  { induction k as [|k IH]; [reflexivity|]. cbn [passWorld].
    replace (afterInstall (C := yalcAfterInstall) "npm" installOptions 1)
      with 1 by (vm_compute; reflexivity).
    exact IH. }
  split; [|split].
  - intros [|k].
    + intros _. vm_compute. discriminate.
    + cbn [passWorld].
      replace (afterInstall (C := yalcAfterInstall) "npm" installOptions 0)
        with 1 by (vm_compute; reflexivity).
      rewrite Hrest. intros [Hproblems _]. exfalso. apply Hproblems.
      vm_compute. reflexivity.
  - repeat split; vm_compute; congruence.
  - eexists. split; [vm_compute; reflexivity|].
    split; vm_compute; reflexivity.
Qed.

Lemma C2_witness :
  exists s',
    checkPeerDependencies (C := conflictProject) 1 "npm" installOptions
      (initial 0) = Some (Exit 1 s')
    /\ In (Err "  ❌  Unable to find a version of left that satisfies the following peerDependencies: >=2.0.0 and <1.0.0")
         (console s').
Proof.
  assert (Hproblems : passProblems (C := conflictProject) 0 installOptions <> [])
    by (vm_compute; discriminate).
  assert (Hnosolution :
            passNoSolution (C := conflictProject) 0 installOptions <> [])
    by (vm_compute; discriminate).
  destruct (@C2_no_solution_diagnostics_and_exit_1 _ conflictProject
              "npm" installOptions (initial 0) 0
              Hproblems (or_introl eq_refl) Hnosolution)
    as [Hdiag Hexit].
  destruct Hexit as [s' [Hrun _]]; [right; vm_compute; reflexivity|].
  exists s'. split; [exact Hrun|].
  apply (Hdiag _ Hrun
           {| problem := applySemverInformation (C := conflictProject) 0 leftByApp;
              resolution := None |}).
  vm_compute. left. reflexivity.
Defined.

(** C2 as stated fails on [conflictStuckProject]: every pass reports that
    [left] has no solution, and the run leaves with the code 5 of the
    recursion limit. *)
Lemma C2_counterexample :
  exists s',
    checkPeerDependencies (C := conflictStuckProject) 5 "npm" installOptions
      (initial 0) = Some (Exit 5 s')
    /\ passNoSolution (C := conflictStuckProject) (world s') installOptions <> []
    /\ In (Err "  ❌  Unable to find a version of left that satisfies the following peerDependencies: >=2.0.0 and <1.0.0")
         (console s')
    /\ exitStatus (termination (Exit (A := unit) 5 s')) = 5%Z.
Proof.
  eexists. split; [vm_compute; reflexivity|].
  split; [vm_compute; discriminate|].
  split; [|reflexivity].
  vm_compute. do 3 right. left. reflexivity.
Qed.

(** On [ghostProject] the search reports that [ghost] has no solution,
    [lib] is installed, nothing new is unsatisfied, and the run
    returns. *)
Example ghostProject_returns :
  exists s',
    checkPeerDependencies (C := ghostProject) 5 "npm" installOptions
      (initial 0) = Some (Ret tt s')
    /\ In (Err "  ❌  Unable to find a version of ghost that satisfies the following peerDependencies: >=1.0.0")
         (console s').
Proof.
  eexists. split; [vm_compute; reflexivity|].
  vm_compute. do 3 right. left. reflexivity.
Qed.

Lemma C5_witness :
  reachesInstall (C := upgradeProject) "npm" installOptions 0
  /\ passNewUnsatisfied (C := upgradeProject) "npm" 0 installOptions = []
  /\ exists s',
      checkPeerDependencies (C := upgradeProject) 5 "npm" installOptions
        (initial 0) = Some (Ret tt s')
      /\ installingSteps (console s') = 1.
Proof.
  assert (Hreaches : reachesInstall (C := upgradeProject) "npm" installOptions 0)
    by (repeat split; vm_compute; congruence).
  assert (Hnone : passNewUnsatisfied (C := upgradeProject) "npm" 0
                    installOptions = [])
    by (vm_compute; reflexivity).
  split; [exact Hreaches|]. split; [exact Hnone|].
  destruct (@C5_install_then_nothing_new_returns _ upgradeProject
              "npm" installOptions (initial 0) 4 Hreaches Hnone)
    as [s' [Hrun [_ [_ [_ [_ Hsteps]]]]]].
  exists s'. split; [exact Hrun | exact Hsteps].
Defined.

Lemma C6_witness :
  exists status,
    checkPeerDependencies (C := yalcProject) 5 "npm" installByDepender
      (initial 0)
    = Some (Ret tt
              (say (initial 0)
                 (status ++ [Log "  ✅  All peer dependencies are met"]))).
Proof.
  assert (Hnone : forall dep,
             In dep (getAllNestedPeerDependencies (C := yalcProject)
                       (world (initial 0)) installByDepender) ->
             semverSatisfies dep = false -> isYalc dep = true).
  { intros dep Hin Hunsatisfied. vm_compute in Hin.
    destruct Hin as [<-|[<-|[]]]; [discriminate | reflexivity]. }
  destruct (@C6_no_problem_reports_success _ yalcProject
              "npm" installByDepender (initial 0) 4 Hnone)
    as [status [_ [Hrun _]]].
  exists status. exact Hrun.
Defined.

Lemma C8_witness :
  In (Err "  ❌  Unable to find a version of left that satisfies the following peerDependencies: <1.0.0 and >=2.0.0")
    (console
       (finalState
          (Exit (A := unit) 1
             (say (initial 0)
                (map Status
                   ["  ❌  alpha-plugin@1.0.0 requires left <1.0.0 (left is not installed)";
                    "  ❌  zeta-app@1.0.0 requires left >=2.0.0 (left is not installed)"]
                 ++ searchEvents
                      (passNoSolution (C := conflictProject) 0 installByDepender)
                      (passRecords (C := conflictProject) 0 installByDepender)))))).
Proof.
  assert (Hproblems :
            passProblems (C := conflictProject) (world (initial 0))
              installByDepender <> [])
    by (vm_compute; discriminate).
  assert (Hx : In {| problem := applySemverInformation (C := conflictProject)
                                  0 leftByPlugin;
                     resolution := None |}
                 (passNoSolution (C := conflictProject) (world (initial 0))
                    installByDepender))
    by (vm_compute; left; reflexivity).
  refine (proj1 (@C8_diagnostic_lists_each_range_once _ conflictProject
                   "npm" installByDepender (initial 0) 0 _ _
                   Hproblems (or_introl eq_refl) Hx _)).
  vm_compute. reflexivity.
Defined.

(** C8 as stated fails on [conflictProject] reported by depender: the
    gathered list has [>=2.0.0] before [<1.0.0], the diagnostic has them
    the other way round. *)
Lemma C8_counterexample :
  firstSeen
    (map version
       (filter (fun dep => (name dep =? "left")%string)
          (gatherPeerDependencies (Collaborators := conflictProject) 0
             installByDepender)))
  = [">=2.0.0"; "<1.0.0"]
  /\ exists s',
      checkPeerDependencies (C := conflictProject) 5 "npm" installByDepender
        (initial 0) = Some (Exit 1 s')
      /\ filter (fun e => match e with Err _ => true | _ => false end)
           (console s')
         = [Err "  ❌  Unable to find a version of left that satisfies the following peerDependencies: <1.0.0 and >=2.0.0";
            Err EmptyString].
Proof.
  split; [vm_compute; reflexivity|].
  eexists. split; vm_compute; reflexivity.
Qed.

Lemma C10_witness :
  exists events,
    console
      (finalState
         (Exit (A := unit) 1
            (say (initial 0)
               (searchEvents
                  (passNoSolution (C := conflictProject) 0 installOptions)
                  (passRecords (C := conflictProject) 0 installOptions)))))
    = console (initial 0) ++ events
    /\ filter isStatus events = [].
Proof.
  destruct (@C10_no_order_no_status_line _ conflictProject
              "npm" installOptions eq_refl eq_refl) as [Hquiet _].
  apply (Hquiet 1 (initial 0)). vm_compute. reflexivity.
Defined.

(** * Further properties of the checker *)

(** ** Every run: how it ends, how often it installs *)

Section Runs.
Context {World : Type} {C : Collaborators World}.

Lemma no_exec_status events :
  forallb isStatus events = true -> filter isExec events = [].
Proof.
  induction events as [|e l IH]; [reflexivity|]. simpl. intros H.
  apply andb_true_iff in H as [He Hl]. destruct e; try discriminate.
  simpl. auto.
Qed.

Lemma no_exec_search nosolution all :
  filter isExec (searchEvents nosolution all) = [].
Proof.
  unfold searchEvents. rewrite !filter_app.
  assert (H : filter isExec
                (map (fun r => Err (noSolutionLine r all)) nosolution) = [])
    by (induction nosolution; simpl; auto).
  rewrite H. now destruct (0 <? List.length nosolution)%nat.
Qed.

Lemma no_exec_listing commandLines :
  filter isExec (listingEvents commandLines) = [].
Proof.
  unfold listingEvents. destruct commandLines as [|c l]; [reflexivity|].
  rewrite !filter_app.
  assert (H : forall l', filter isExec (map Log l') = [])
    by (induction l'; simpl; auto).
  now rewrite H.
Qed.

Lemma exec_of_install commandLines :
  filter isExec (installEvents commandLines) = map Exec commandLines.
Proof.
  unfold installEvents. simpl.
  induction commandLines as [|c l IH]; simpl; [reflexivity | now rewrite IH].
Qed.

Lemma installingSteps_other e events :
  isInstallingBanner e = false ->
  installingSteps (e :: events) = installingSteps events.
Proof. unfold installingSteps. simpl. now intros ->. Qed.

Ltac count_steps :=
  repeat (rewrite installingSteps_other by reflexivity);
  change (installingSteps []) with 0; lia.

(** What every result of a run satisfies. *)
Lemma run_facts (packageManager : string) (options : CliOptions) :
  forall (budget : nat) (s : State World) r,
    checkPeerDependencies budget packageManager options s = Some r ->
    (recursiveCount s <= recursiveCount (finalState r)
     /\ recursiveCount (finalState r) <= Nat.max 5 (S (recursiveCount s)))
    /\ (termination r = Returned
        \/ termination r = Exited 1
        \/ (termination r = Exited 5
            /\ install options = true
            /\ 5 <= recursiveCount (finalState r)))
    /\ exists events,
        console (finalState r) = console s ++ events
        /\ (install options = true ->
            installingSteps events <= Nat.max 1 (5 - recursiveCount s)).
Proof.
  induction budget as [|budget IH]; intros s r Hr; [discriminate|].
  destruct (status_of_pass options s) as [status [Hstatus [_ Hreport]]].
  rewrite (@checkPeerDependencies_pass _ _ budget packageManager
             options s status Hreport) in Hr.
  cbv zeta in Hr.
  pose proof (installingSteps_status _ Hstatus) as Hs0.
  destruct (passProblems (world s) options) as [|p ps].
  - inversion Hr; subst. simpl_state.
    split; [lia|]. split; [now left|].
    exists (status ++ [Log "  ✅  All peer dependencies are met"]).
    rewrite app_assoc. split; [reflexivity|]. intros _.
    rewrite installingSteps_app, Hs0. count_steps.
  - destruct (install options) eqn:Einstall.
    + destruct (passCommands packageManager (world s) options) as [|c cs].
      * inversion Hr; subst. simpl_state.
        split; [lia|]. split; [right; now left|].
        eexists. rewrite <- app_assoc. split; [reflexivity|]. intros _.
        rewrite installingSteps_app, installingSteps_search, Hs0. lia.
      * rewrite installPeerDependencies_spec in Hr. cbv zeta in Hr.
        simpl_state in Hr.
        destruct (newUnsatisfied (execAll (c :: cs) (world s)) options
                    (passNoSolution (world s) options)) as [|d ds].
        -- inversion Hr; subst. simpl_state.
           split; [lia|]. split; [now left|].
           eexists. rewrite <- !app_assoc. split; [reflexivity|]. intros _.
           rewrite !installingSteps_app, installingSteps_search,
             installingSteps_install, Hs0.
           destruct (passNoSolution (world s) options); count_steps.
        -- destruct (Nat.ltb_spec (S (recursiveCount s)) 5) as [Hlt|Hge].
           ++ apply IH in Hr as [[Hlow Hhigh] [Hend [events [Hevents Hsteps]]]].
              simpl_state in Hlow. simpl_state in Hhigh.
              simpl_state in Hevents. simpl_state in Hsteps.
              split; [lia|]. split.
              ** destruct Hend as [H|[H|[H1 [H2 H3]]]]; auto.
              ** eexists. rewrite Hevents, <- !app_assoc.
                 split; [reflexivity|]. intros _.
                 specialize (Hsteps eq_refl).
                 rewrite !installingSteps_app, installingSteps_search,
                   installingSteps_install, Hs0.
                 cbn [app]. count_steps.
           ++ inversion Hr; subst. simpl_state.
              split; [lia|]. split; [right; right; repeat split; lia|].
              eexists. rewrite <- !app_assoc. split; [reflexivity|]. intros _.
              rewrite !installingSteps_app, installingSteps_search,
                installingSteps_install, Hs0. count_steps.
    + destruct (findSolutions_opt options).
      * inversion Hr; subst. simpl_state.
        split; [lia|]. split; [right; now left|].
        eexists. rewrite <- !app_assoc. split; [reflexivity|]. discriminate.
      * inversion Hr; subst. simpl_state.
        split; [lia|]. split; [right; now left|].
        eexists. rewrite <- !app_assoc. split; [reflexivity|]. discriminate.
Qed.

(** X1. A run leaves only with status 0 (it returns), 1 or 5, and with 5
    only when install was requested and the recursion counter has reached
    5; the counter never goes down. *)
Theorem X1_run_ends_with_status_0_1_or_5
    (packageManager : string) (options : CliOptions) (budget : nat)
    (s : State World) (r : Res World unit)
    (Hrun : checkPeerDependencies budget packageManager options s = Some r) :
  (exitStatus (termination r) = 0%Z /\ termination r = Returned
   \/ exitStatus (termination r) = 1%Z
   \/ (exitStatus (termination r) = 5%Z
       /\ install options = true
       /\ 5 <= recursiveCount (finalState r)))
  /\ recursiveCount s <= recursiveCount (finalState r).
Proof.
  destruct (run_facts _ _ _ _ Hrun) as [[Hlow _] [Hend _]].
  split; [|exact Hlow].
  destruct Hend as [H|[H|[H1 [H2 H3]]]]; rewrite ?H, ?H1; cbn; auto.
Qed.

(** X2. In a fresh process a call always ends, within five nested calls:
    the counter is at most 5 at the end and, when install was requested,
    the Installing step has run at most five times. *)
Theorem X2_fresh_run_ends_within_five_installs
    (packageManager : string) (options : CliOptions) (w : World) :
  exists r,
    checkPeerDependencies 5 packageManager options (initial w) = Some r
    /\ recursiveCount (finalState r) <= 5
    /\ (install options = false
        \/ installingSteps (console (finalState r)) <= 5).
Proof.
  destruct (@checkPeerDependencies_terminates _ _ packageManager options 5
              (initial w)) as [r Hr]; [lia | cbn; lia |].
  exists r. split; [exact Hr|].
  destruct (run_facts _ _ _ _ Hr) as [[_ Hhigh] [_ [events [Hevents Hsteps]]]].
  cbn in Hhigh, Hevents, Hsteps. split; [lia|].
  destruct (install options); [right | now left].
  rewrite Hevents. now apply Hsteps.
Qed.

(** X3. Without the install option a call runs no command and changes
    neither what is installed nor the recursion counter; it returns when
    no record is a problem and leaves with status 1 otherwise. *)
Theorem X3_without_install_nothing_is_run
    (packageManager : string) (options : CliOptions) (budget : nat)
    (s : State World) (r : Res World unit)
    (Hinstall : install options = false)
    (Hrun : checkPeerDependencies budget packageManager options s = Some r) :
  world (finalState r) = world s
  /\ recursiveCount (finalState r) = recursiveCount s
  /\ (exists events,
         console (finalState r) = console s ++ events
         /\ filter isExec events = [])
  /\ (passProblems (world s) options = [] -> termination r = Returned)
  /\ (passProblems (world s) options <> [] -> termination r = Exited 1).
Proof.
  destruct budget as [|budget]; [discriminate|].
  destruct (status_of_pass options s) as [status [Hstatus [_ Hreport]]].
  rewrite (@checkPeerDependencies_pass _ _ budget packageManager
             options s status Hreport) in Hrun.
  cbv zeta in Hrun. rewrite Hinstall in Hrun.
  pose proof (no_exec_status _ Hstatus) as Hs0.
  destruct (passProblems (world s) options) as [|p ps].
  - inversion Hrun; subst. simpl_state.
    repeat split; try reflexivity; try congruence.
    exists (status ++ [Log "  ✅  All peer dependencies are met"]).
    rewrite app_assoc. split; [reflexivity|].
    now rewrite filter_app, Hs0.
  - destruct (findSolutions_opt options); inversion Hrun; subst; simpl_state;
      (repeat split; try reflexivity; try congruence);
      eexists; rewrite <- !app_assoc; (split; [reflexivity|]);
      rewrite !filter_app, Hs0, ?no_exec_search, ?no_exec_listing;
      reflexivity.
Qed.

End Runs.

(** ** The report and the classifier together *)

Section Report.
Context {World : Type} {C : Collaborators World}.

Lemma filter_length_perm {A} (f : A -> bool) (l l' : list A) :
  Permutation l l' ->
  List.length (filter f l) = List.length (filter f l').
Proof.
  induction 1 as [|x l l' _ IH|x y l|l l' l'' _ IH1 _ IH2]; simpl.
  - reflexivity.
  - destruct (f x); simpl; now rewrite IH.
  - destruct (f x), (f y); reflexivity.
  - now rewrite IH1.
Qed.

Lemma filter_perm {A} (f : A -> bool) (l l' : list A) :
  Permutation l l' -> Permutation (filter f l) (filter f l').
Proof.
  induction 1 as [|x l l' _ IH|x y l|l l' l'' _ IH1 _ IH2]; simpl.
  - apply perm_nil.
  - destruct (f x); [now apply perm_skip | assumption].
  - destruct (f x), (f y); try apply Permutation_refl. apply perm_swap.
  - now apply perm_trans with (filter f l').
Qed.

Lemma reportByDepender_counts dep options :
  exists events,
    countsFor options dep events
    /\ forall s : State World,
        reportPeerDependencyStatusByDepender dep options s
        = Some (Ret tt (say s events)).
Proof.
  unfold reportPeerDependencyStatusByDepender, countsFor, isProblem.
  destruct (semverSatisfies dep); [destruct (verbose options)|
    destruct (isYalc dep); [|destruct (JS.truthy (installedVersion dep))]];
    try (eexists [_]; split; [| intros s; reflexivity];
         repeat split; try reflexivity; cbn; now rewrite ?orb_true_r).
  exists []. split; [repeat split|].
  intros s. unfold ret. now rewrite say_nil.
Qed.

Lemma reportByDependee_counts dep options :
  exists events,
    countsFor options dep events
    /\ forall s : State World,
        reportPeerDependencyStatusByDependee dep options s
        = Some (Ret tt (say s events)).
Proof.
  unfold reportPeerDependencyStatusByDependee, countsFor, isProblem.
  destruct (semverSatisfies dep); [destruct (verbose options)|
    destruct (isYalc dep); [|destruct (JS.truthy (installedVersion dep))]];
    try (eexists [_]; split; [| intros s; reflexivity];
         repeat split; try reflexivity; cbn; now rewrite ?orb_true_r).
  exists []. split; [repeat split|].
  intros s. unfold ret. now rewrite say_nil.
Qed.

Lemma forEach_counts options (f : Dependency -> Proc World unit) :
  (forall dep, exists events,
      countsFor options dep events
      /\ forall s : State World, f dep s = Some (Ret tt (say s events))) ->
  forall l, exists events,
    forallb isStatus events = true
    /\ List.length events
       = List.length
           (filter (fun dep => verbose options || negb (semverSatisfies dep)) l)
    /\ List.length (filter isCrossLine events)
       = List.length (filter isProblem l)
    /\ forall s : State World, forEach l f s = Some (Ret tt (say s events)).
Proof.
  intros Hf. induction l as [|x l [evs [Hs [Hn [Hc IH]]]]].
  - exists []. repeat split. intros s. simpl. unfold ret. now rewrite say_nil.
  - destruct (Hf x) as [ex [[Hxs [Hxn Hxc]] Hx]]. exists (ex ++ evs).
    split; [rewrite forallb_app; now rewrite Hxs, Hs|].
    split; [|split].
    + rewrite length_app, Hxn, Hn. simpl.
      now destruct (verbose options || negb (semverSatisfies x)).
    + rewrite filter_app, length_app, Hxc, Hc. simpl.
      now destruct (isProblem x).
    + intros s. simpl. unfold bind. rewrite Hx, IH. now rewrite say_say.
Qed.

(** X4. With [orderBy] set to [depender] or [dependee] the report writes
    one status line for each record when [verbose] is set and one for
    each unsatisfied record otherwise; the lines with a cross are as many
    as the records line 119 counts as problems. *)
Theorem X4_report_lines_match_records
    (options : CliOptions) (l : list Dependency) (s : State World)
    (Horder : orderByIs options "depender" = true
              \/ orderByIs options "dependee" = true) :
  exists sorted status,
    reportStatus options l s = Some (Ret sorted (say s status))
    /\ forallb isStatus status = true
    /\ List.length status
       = List.length
           (filter (fun dep => verbose options || negb (semverSatisfies dep)) l)
    /\ List.length (filter isCrossLine status)
       = List.length (filter isProblem l).
Proof.
  unfold reportStatus.
  destruct (orderByIs options "depender") eqn:Hdepender.
  - destruct (@forEach_counts options
                (fun dep => reportPeerDependencyStatusByDepender dep options)
                (fun dep => reportByDepender_counts dep options)
                (JS.sort byDepender l)) as [status [Hs [Hn [Hc Hrun]]]].
    exists (JS.sort byDepender l), status.
    split; [unfold bind; now rewrite Hrun|]. split; [exact Hs|].
    split.
    + rewrite Hn. apply filter_length_perm, sort_perm.
    + rewrite Hc. apply filter_length_perm, sort_perm.
  - destruct Horder as [H|Hdependee]; [discriminate|]. rewrite Hdependee.
    destruct (@forEach_counts options
                (fun dep => reportPeerDependencyStatusByDependee dep options)
                (fun dep => reportByDependee_counts dep options)
                (JS.sort byDependee l)) as [status [Hs [Hn [Hc Hrun]]]].
    exists (JS.sort byDependee l), status.
    split; [unfold bind; now rewrite Hrun|]. split; [exact Hs|].
    split.
    + rewrite Hn. apply filter_length_perm, sort_perm.
    + rewrite Hc. apply filter_length_perm, sort_perm.
Qed.

(** X5. The order of the report changes the order of the problems, never
    which records are problems. *)
Theorem X5_problems_do_not_depend_on_the_order
    (w : World) (options : CliOptions) :
  Permutation (passProblems w options)
    (filter isProblem (getAllNestedPeerDependencies w options))
  /\ List.length (passProblems w options)
     = List.length (filter isProblem (getAllNestedPeerDependencies w options)).
Proof.
  unfold passProblems, passRecords. split.
  - apply filter_perm, reportOrder_perm.
  - apply filter_length_perm, reportOrder_perm.
Qed.

(** X6. A record whose package has no installed version (absent, or the
    empty string) is classified as a problem, and both reports give it
    the line that says the package is not installed. *)
Theorem X6_missing_package_is_a_problem
    (w : World) (dep : Dependency) (options : CliOptions) (s : State World)
    (Hmissing : JS.truthy (getInstalledVersion w dep) = false) :
  let classified := applySemverInformation w dep in
  isProblem classified = true
  /\ reportPeerDependencyStatusByDepender classified options s
     = Some (Ret tt
               (say s [Status ("  ❌  " ++ depender dep ++ "@"
                               ++ dependerVersion dep ++ " requires "
                               ++ name dep ++ " " ++ version dep ++ " ("
                               ++ name dep ++ " is not installed)")]))
  /\ reportPeerDependencyStatusByDependee classified options s
     = Some (Ret tt
               (say s [Status ("  ❌  " ++ name dep ++ " " ++ version dep
                               ++ " is required by " ++ depender dep ++ "@"
                               ++ dependerVersion dep ++ " ("
                               ++ name dep ++ " is not installed)")])).
Proof.
  intros classified.
  assert (Hflags : semverSatisfies classified = false
                   /\ isYalc classified = false
                   /\ JS.truthy (installedVersion classified) = false).
  { unfold classified, applySemverInformation; cbn [semverSatisfies isYalc
      installedVersion]. rewrite Hmissing. split; [reflexivity|].
    split; [|reflexivity].
    destruct (getInstalledVersion w dep) as [v|];
      [|apply undefined_is_not_yalc].
    destruct v; [reflexivity | discriminate]. }
  destruct Hflags as [Hs [Hy Ht]].
  unfold isProblem, reportPeerDependencyStatusByDepender,
    reportPeerDependencyStatusByDependee.
  rewrite Hs, Hy, Ht. repeat split; reflexivity.
Qed.

(** X7. A classified record that is satisfied or linked through yalc has
    an installed version, a string that is not empty: the report lines of
    such records never show an absent version. *)
Theorem X7_satisfied_or_yalc_has_a_version
    (w : World) (dep : Dependency)
    (Hflag : semverSatisfies (applySemverInformation w dep) = true
             \/ isYalc (applySemverInformation w dep) = true) :
  exists v,
    installedVersion (applySemverInformation w dep) = Some v
    /\ getInstalledVersion w dep = Some v
    /\ v <> EmptyString
    /\ JS.toString (installedVersion (applySemverInformation w dep)) = v.
Proof.
  unfold applySemverInformation in *.
  cbn [semverSatisfies isYalc installedVersion] in *.
  destruct (getInstalledVersion w dep) as [v|].
  - destruct v as [|c v].
    + destruct Hflag as [H|H]; discriminate.
    + exists (String c v). repeat split. discriminate.
  - rewrite undefined_is_not_yalc in Hflag.
    destruct Hflag as [H|H]; discriminate.
Qed.

End Report.

(** ** The search, the install step and what follows *)

Section Steps.
Context {World : Type} {C : Collaborators World}.

Lemma partition_perm {A} (f : A -> bool) (l : list A) :
  Permutation (filter f l ++ filter (fun x => negb (f x)) l) l.
Proof.
  induction l as [|x l IH]; simpl; [apply perm_nil|].
  destruct (f x); simpl.
  - now apply perm_skip.
  - apply Permutation_sym, Permutation_cons_app. now apply Permutation_sym.
Qed.

Lemma truthy_spec (x : option string) :
  JS.truthy x = true <-> exists v, x = Some v /\ v <> EmptyString.
Proof.
  destruct x as [v|]; simpl.
  - destruct (String.eqb_spec v EmptyString) as [->|Hne]; simpl; split.
    + discriminate.
    + intros [v [Hv Hne]]. inversion Hv; subst. congruence.
    + intros _. now exists v.
    + reflexivity.
  - split; [discriminate|]. intros [v [Hv _]]. discriminate.
Qed.

(** X8. [findSolutions] splits the resolutions of the engine in two:
    those with a version that is a non-empty string, and the others
    (absent or empty).  It changes neither the world nor the counter,
    writes one line to the error stream for each resolution without a
    version, followed by one empty line, and nothing there when every
    resolution has a version. *)
Theorem X8_findSolutions_splits_the_resolutions
    (problems all : list Dependency) (s : State World) :
  exists solved nosolution events,
    findSolutions problems all s
    = Some (Ret (solved, nosolution) (say s events))
    /\ Permutation (solved ++ nosolution)
         (findPossibleResolutions (world s) problems all)
    /\ (forall r, In r solved ->
                  exists v, resolution r = Some v /\ v <> EmptyString)
    /\ (forall r, In r nosolution ->
                  resolution r = None \/ resolution r = Some EmptyString)
    /\ filter isErr events
       = map (fun r => Err (noSolutionLine r all)) nosolution
         ++ match nosolution with [] => [] | _ => [Err EmptyString] end
    /\ filter isExec events = [].
Proof.
  eexists _, _, _. split; [apply findSolutions_spec|].
  split; [apply partition_perm|]. split; [|split; [|split]].
  - intros r Hr. apply filter_In in Hr as [_ Hr]. now apply truthy_spec.
  - intros r Hr. apply filter_In in Hr as [_ Hr].
    apply negb_true_iff in Hr.
    destruct (resolution r) as [v|]; [|now left]. right.
    simpl in Hr. apply negb_false_iff, String.eqb_eq in Hr. now subst.
  - unfold searchEvents. cbn [app filter isErr].
    rewrite filter_app.
    match goal with |- context [filter isErr (map ?f ?l)] =>
      assert (H : filter isErr (map f l) = map f l)
        by (induction l; simpl; congruence);
      rewrite H; destruct l; reflexivity
    end.
  - apply no_exec_search.
Qed.

Lemma split_exec_app (l1 l2 before after : list Event) (command : string) :
  l1 ++ l2 = before ++ Exec command :: after ->
  filter isExec l2 = [] ->
  exists after', l1 = before ++ Exec command :: after'.
Proof.
  revert before. induction l1 as [|e l1 IH]; intros before E Hl2.
  - cbn [app] in E. rewrite E, filter_app in Hl2. cbn in Hl2.
    apply app_eq_nil in Hl2 as [_ Hl2]. discriminate.
  - destruct before as [|b before]; cbn [app] in E.
    + inversion E; subst. now exists l1.
    + inversion E as [[Hb E1]]; subst b.
      destruct (IH _ E1 Hl2) as [after' ->]. now exists after'.
Qed.

Lemma installEvents_echo (commandLines : list string) before command after :
  installEvents commandLines = before ++ Exec command :: after ->
  exists before', before = before' ++ [Log ("$ " ++ command)].
Proof.
  assert (Hecho : forall l before command after,
             flat_map (fun c => [Log ("$ " ++ c); Exec c; Log EmptyString]) l
             = before ++ Exec command :: after ->
             exists before', before = before' ++ [Log ("$ " ++ command)]).
  { clear. induction l as [|c l IH]; intros before command after E.
    - destruct before; discriminate.
    - cbn [flat_map app] in E.
      destruct before as [|e1 before]; [discriminate|].
      inversion E as [[He1 E1]]; subst e1.
      destruct before as [|e2 before].
      + inversion E1; subst. now exists [].
      + inversion E1 as [[He2 E2]]; subst e2.
        destruct before as [|e3 before]; [discriminate|].
        inversion E2 as [[He3 E3]]; subst e3.
        destruct (IH _ _ _ E3) as [before' ->].
        now exists (Log ("$ " ++ c) :: Exec c :: Log EmptyString :: before'). }
  intros E. unfold installEvents in E.
  destruct before as [|e1 before]; [discriminate|].
  destruct before as [|e2 before]; [discriminate|].
  cbn [app] in E. inversion E as [[He1 He2 E1]]; subst e1 e2.
  destruct (Hecho _ _ _ _ E1) as [before' ->].
  now exists (Log "Installing peerDependencies..." :: Log EmptyString
                :: before').
Qed.

(** X9. When, after the commands, no gathered record is newly
    unsatisfied, [installPeerDependencies] returns without calling the
    checker back, whatever that callback is: each command has been
    echoed and run once, in order, and the success line is written only
    when no problem was left without a solution. *)
Theorem X9_install_runs_each_command_once
    (check : string -> CliOptions -> Proc World unit)
    (commandLines : list string) (options : CliOptions)
    (nosolution : list Resolution) (packageManager : string)
    (s : State World)
    (Hnone : newUnsatisfied (execAll commandLines (world s)) options
               nosolution = []) :
  exists events,
    installPeerDependencies check commandLines options nosolution
      packageManager s
    = Some (Ret tt
              {| world := execAll commandLines (world s);
                 recursiveCount := recursiveCount s;
                 console := console s ++ events |})
    /\ filter isExec events = map Exec commandLines
    /\ (forall before command after,
           events = before ++ Exec command :: after ->
           exists before',
             before = before' ++ [Log ("$ " ++ command)])
    /\ (nosolution = [] ->
        exists before,
          events = before ++ [Log "All peer dependencies are met"])
    /\ (nosolution <> [] ->
        ~ In (Log "All peer dependencies are met") events).
Proof.
  rewrite installPeerDependencies_spec. cbv zeta.
  cbn [installedState world]. rewrite Hnone.
  destruct nosolution as [|x nosolution].
  - exists (installEvents commandLines ++ [Log "All peer dependencies are met"]).
    unfold say, installedState; cbn [world recursiveCount console].
    rewrite <- app_assoc.
    split; [reflexivity|]. split; [|split; [|split]].
    + rewrite filter_app, exec_of_install. apply app_nil_r.
    + intros before command after E.
      apply split_exec_app in E as [after' E]; [|reflexivity].
      now apply installEvents_echo in E.
    + intros _. now exists (installEvents commandLines).
    + congruence.
  - exists (installEvents commandLines).
    unfold say, installedState; cbn [world recursiveCount console].
    rewrite app_nil_r.
    split; [reflexivity|]. split; [apply exec_of_install|].
    split; [|split; [congruence|]].
    + intros before command after E. now apply installEvents_echo in E.
    + intros _. unfold installEvents. intros [H|[H|H]];
        try discriminate.
      apply in_flat_map in H as [c [_ [H|[H|[H|[]]]]]]; discriminate.
Qed.

(** X15. When nothing is newly unsatisfied after the commands, every
    record gathered then is satisfied or is the same edge as a problem
    known to have no solution; so the success line of line 93, written
    when no problem lacked a solution, means that every gathered record
    is satisfied, the ones linked through yalc too. *)
Theorem X15_install_success_means_all_satisfied
    (check : string -> CliOptions -> Proc World unit)
    (commandLines : list string) (options : CliOptions)
    (nosolution : list Resolution) (packageManager : string)
    (s : State World)
    (Hnone : newUnsatisfied (execAll commandLines (world s)) options
               nosolution = []) :
  let after := execAll commandLines (world s) in
  (forall dep,
      In dep (getAllNestedPeerDependencies after options) ->
      semverSatisfies dep = true
      \/ exists x, In x nosolution /\ isSameDep (problem x) dep = true)
  /\ (nosolution = [] ->
      installPeerDependencies check commandLines options nosolution
        packageManager s
      = Some (Ret tt
                (say (installedState commandLines s)
                   [Log "All peer dependencies are met"]))
      /\ forall dep,
          In dep (getAllNestedPeerDependencies after options) ->
          semverSatisfies dep = true).
Proof.
  intros after.
  assert (Hall : forall dep,
             In dep (getAllNestedPeerDependencies after options) ->
             semverSatisfies dep = true
             \/ exists x, In x nosolution
                          /\ isSameDep (problem x) dep = true).
  { intros dep Hin.
    destruct (semverSatisfies dep) eqn:Hs; [now left|]. right.
    destruct (existsb (fun x => isSameDep (problem x) dep) nosolution)
      eqn:Hex.
    - apply existsb_exists in Hex as [x [Hx Hsame]]. now exists x.
    - exfalso.
      assert (Hd : In dep (newUnsatisfied after options nosolution)).
      { unfold newUnsatisfied. apply filter_In. split.
        - apply filter_In. split; [assumption | now rewrite Hs].
        - now rewrite Hex. }
      unfold after in Hd. rewrite Hnone in Hd. destruct Hd. }
  split; [exact Hall|]. intros ->. split.
  - rewrite installPeerDependencies_spec. cbv zeta.
    cbn [installedState world]. now rewrite Hnone.
  - intros dep Hin. destruct (Hall dep Hin) as [H|[x [[] _]]]. exact H.
Qed.

End Steps.

(** ** Passes that follow one another *)

Section Passes.
Context {World : Type} {C : Collaborators World}.

(** X10. When the Installing step leaves new unsatisfied records, the
    counter is below 4 and the records gathered afterwards hold no
    problem (the unsatisfied ones are linked through yalc), the checker
    is called once more and returns with the all-satisfied line: one
    Installing step, the counter one higher. *)
Theorem X10_recheck_without_problems_returns
    (packageManager : string) (options : CliOptions) (s : State World)
    (budget : nat)
    (Hreaches : reachesInstall packageManager options (world s))
    (Hnew : passNewUnsatisfied packageManager (world s) options <> [])
    (Hcount : recursiveCount s < 4)
    (Hclean : passProblems (afterInstall packageManager options (world s))
                options = []) :
  exists s',
    checkPeerDependencies (S (S budget)) packageManager options s
    = Some (Ret tt s')
    /\ world s' = afterInstall packageManager options (world s)
    /\ recursiveCount s' = S (recursiveCount s)
    /\ installingSteps (console s') = installingSteps (console s) + 1
    /\ In (Log ("Found "
                ++ JS.ofNat
                     (List.length
                        (passNewUnsatisfied packageManager (world s) options))
                ++ " new unmet peerDependencies..."))
         (console s')
    /\ exists before,
        console s' = before ++ [Log "  ✅  All peer dependencies are met"].
Proof.
  destruct Hreaches as [Hproblems [Hinstall Hcommands]].
  unfold passNewUnsatisfied in Hnew |- *.
  unfold afterInstall in Hnew, Hclean |- *.
  destruct (status_of_pass options s) as [status [Hstatus [_ Hreport]]].
  rewrite (@checkPeerDependencies_pass _ _ (S budget) packageManager
             options s status Hreport). cbv zeta.
  destruct (passProblems (world s) options) as [|p ps]; [congruence|].
  rewrite Hinstall.
  destruct (passCommands packageManager (world s) options) as [|c cs] eqn:Ec;
    [congruence|].
  rewrite installPeerDependencies_spec. cbv zeta.
  cbn [installedState say world recursiveCount console].
  destruct (newUnsatisfied (execAll (c :: cs) (world s)) options
              (passNoSolution (world s) options)) as [|d ds] eqn:Enew;
    [congruence|].
  assert (Hlt : (S (recursiveCount s) <? 5)%nat = true)
    by (apply Nat.ltb_lt; lia).
  rewrite Hlt.
  match goal with |- context [checkPeerDependencies (S budget) _ _ ?s2] =>
    destruct (status_of_pass options s2) as [status2 [Hstatus2 [_ Hreport2]]];
    rewrite (@checkPeerDependencies_pass _ _ budget packageManager
               options s2 status2 Hreport2)
  end.
  cbv zeta. cbn [countedState installedState say world].
  rewrite Hclean.
  eexists. split; [reflexivity|].
  cbn [countedState installedState say world recursiveCount console].
  split; [reflexivity|]. split; [reflexivity|]. split; [|split].
  - rewrite !installingSteps_app, installingSteps_install,
      installingSteps_search, (installingSteps_status _ Hstatus),
      (installingSteps_status _ Hstatus2).
    cbn. lia.
  - rewrite !in_app_iff. left. left. right. now left.
  - eexists. reflexivity.
Qed.

(** X11. The counter belongs to the process, not to one call: a call
    that starts with the counter at [c <= 4] and keeps installing leaves
    with code 5 after [5 - c] Installing steps. *)
Theorem X11_limit_counts_from_the_current_counter
    (packageManager : string) (options : CliOptions) (s : State World)
    (remaining budget : nat)
    (Hcount : recursiveCount s + S remaining = 5)
    (Hbudget : S remaining <= budget)
    (Hkeeps : keepsInstalling packageManager options (world s) (S remaining)) :
  exists s',
    checkPeerDependencies budget packageManager options s = Some (Exit 5 s')
    /\ recursiveCount s' = 5
    /\ installingSteps (console s')
       = installingSteps (console s) + (5 - recursiveCount s).
Proof.
  destruct (@loop_reaches_limit _ _ packageManager options remaining budget s
              Hcount Hbudget Hkeeps)
    as [s' [Hrun [Hfive [_ [Hsteps _]]]]].
  exists s'. split; [exact Hrun|]. split; [exact Hfive|].
  rewrite Hsteps. lia.
Qed.

(** X12. With [findSolutions] and without [install], a call that finds
    problems searches, lists the install commands and leaves with status
    1: no line for no command, a heading that ends in one colon for one
    command, and a heading that ends in two colons for several; each
    command is written once, in order, and none is run. *)
Theorem X12_search_only_lists_the_commands
    (packageManager : string) (options : CliOptions) (s : State World)
    (budget : nat)
    (Hinstall : install options = false)
    (Hsearch : findSolutions_opt options = true)
    (Hproblems : passProblems (world s) options <> []) :
  exists status,
    forallb isStatus status = true
    /\ checkPeerDependencies (S budget) packageManager options s
       = Some (Exit 1
                 (say s
                    (status
                     ++ searchEvents (passNoSolution (world s) options)
                          (passRecords (world s) options)
                     ++ match passCommands packageManager (world s) options with
                        | [] => []
                        | [command] =>
                            [Log "Install peerDependencies using this command:";
                             Log EmptyString; Log command; Log EmptyString]
                        | commandLines =>
                            Log "Install peerDependencies using these commands::"
                            :: Log EmptyString
                            :: map Log commandLines ++ [Log EmptyString]
                        end))).
Proof.
  destruct (status_of_pass options s) as [status [Hstatus [_ Hreport]]].
  exists status. split; [exact Hstatus|].
  rewrite (@checkPeerDependencies_pass _ _ budget packageManager
             options s status Hreport). cbv zeta.
  destruct (passProblems (world s) options) as [|p ps]; [congruence|].
  rewrite Hinstall, Hsearch. rewrite !say_say.
  unfold listingEvents.
  destruct (passCommands packageManager (world s) options) as [|c [|c' cs]];
    reflexivity.
Qed.


End Passes.

(** ** The ranges of a diagnostic, at the edges *)

Lemma firstSeen_constant (v : string) (l : list string) :
  l <> [] -> (forall x, In x l -> x = v) -> firstSeen l = [v].
Proof.
  induction l as [|x l IH]; intros Hne Hall; [congruence|].
  assert (Hx : x = v) by (apply Hall; now left). subst x. simpl.
  destruct l as [|y l]; [reflexivity|].
  rewrite IH; [|discriminate | intros z Hz; apply Hall; now right].
  simpl. now rewrite String.eqb_refl.
Qed.

Lemma no_record_named (n : string) (all : list Dependency) :
  (forall dep, In dep all -> name dep <> n) ->
  filter (fun d => (name d =? n)%string) all = [].
Proof.
  induction all as [|d l IH]; intros Hnone; [reflexivity|]. simpl.
  destruct (String.eqb_spec (name d) n) as [Hn|Hn].
  - exfalso. apply (Hnone d); [now left | assumption].
  - apply IH. intros dep Hin. apply Hnone. now right.
Qed.

(** X14. The ranges of a diagnostic are empty exactly when no record
    names the package; when every record that names it declares the same
    range, however many dependers there are, the diagnostic names that
    range once, with no [and]. *)
Theorem X14_one_range_declared_by_many
    (solution : Resolution) (all : list Dependency) (v : string)
    (Hnamed : exists dep, In dep all /\ name dep = name (problem solution))
    (Hsame : forall dep,
        In dep all -> name dep = name (problem solution) -> version dep = v) :
  peerDepRanges (name (problem solution)) all = [v]
  /\ noSolutionLine solution all
     = ("  ❌  Unable to find a version of " ++ name (problem solution)
        ++ " that satisfies the following peerDependencies: " ++ v)%string
  /\ (forall n,
         peerDepRanges n all = [] <-> forall dep, In dep all -> name dep <> n).
Proof.
  assert (Hranges : peerDepRanges (name (problem solution)) all = [v]).
  { rewrite peerDepRanges_firstSeen. apply firstSeen_constant.
    - destruct Hnamed as [dep [Hin Hname]]. intros E.
      apply map_eq_nil in E.
      assert (Hdep : In dep (filter (fun d => (name d =? name (problem solution))%string) all))
        by (apply filter_In; split; [assumption | now apply String.eqb_eq]).
      rewrite E in Hdep. destruct Hdep.
    - intros x Hx. apply in_map_iff in Hx as [dep [<- Hdep]].
      apply filter_In in Hdep as [Hin Hname].
      apply Hsame; [assumption | now apply String.eqb_eq]. }
  split; [exact Hranges|]. split.
  - rewrite noSolutionLine_text, Hranges. reflexivity.
  - intros n. rewrite peerDepRanges_firstSeen. split.
    + intros E dep Hin Hname.
      assert (Hv : In (version dep)
                     (firstSeen
                        (map version
                           (filter (fun d => (name d =? n)%string) all)))).
      { apply firstSeen_In, in_map, filter_In.
        split; [assumption | now apply String.eqb_eq]. }
      rewrite E in Hv. destruct Hv.
    + intros Hnone. now rewrite (@no_record_named n all Hnone).
Qed.

(** ** The further properties on the sample projects *)

Lemma X1_witness :
  exists r,
    checkPeerDependencies (C := stuckProject) 5 "npm" installOptions (initial 0)
    = Some r
    /\ recursiveCount (initial (World := World) 0) <= recursiveCount (finalState r).
Proof.
  destruct (checkPeerDependencies (C := stuckProject) 5 "npm" installOptions
              (initial 0)) as [r|] eqn:Hrun;
    [|vm_compute in Hrun; discriminate].
  exists r. split; [reflexivity|].
  exact (proj2 (@X1_run_ends_with_status_0_1_or_5 _ stuckProject
                  "npm" installOptions 5 (initial 0) r Hrun)).
Defined.

Lemma X3_witness :
  exists r,
    checkPeerDependencies (C := conflictProject) 1 "npm" reportOnly (initial 0)
    = Some r
    /\ world (finalState r) = 0
    /\ termination r = Exited 1.
Proof.
  destruct (checkPeerDependencies (C := conflictProject) 1 "npm" reportOnly
              (initial 0)) as [r|] eqn:Hrun;
    [|vm_compute in Hrun; discriminate].
  exists r. split; [reflexivity|].
  destruct (@X3_without_install_nothing_is_run _ conflictProject
              "npm" reportOnly 1 (initial 0) r eq_refl Hrun)
    as [Hworld [_ [_ [_ Hexit]]]].
  split; [exact Hworld|]. apply Hexit. vm_compute. discriminate.
Defined.

Lemma X4_witness :
  exists sorted status,
    reportStatus (C := reactProject) reportOnly
      (getAllNestedPeerDependencies (C := reactProject) 0 reportOnly)
      (initial 0)
    = Some (Ret sorted (say (initial 0) status))
    /\ List.length status = 3
    /\ List.length (filter isCrossLine status) = 2.
Proof.
  destruct (@X4_report_lines_match_records _ reactProject reportOnly
              (getAllNestedPeerDependencies (C := reactProject) 0 reportOnly)
              (initial 0) (or_intror eq_refl))
    as [sorted [status [Hrun [_ [Hlines Hcrosses]]]]].
  exists sorted, status. split; [exact Hrun|].
  split; [rewrite Hlines | rewrite Hcrosses]; vm_compute; reflexivity.
Defined.

Lemma X6_witness :
  JS.truthy (getInstalledVersion (Collaborators := reactProject) 0 lodashEdge)
  = false
  /\ isProblem (applySemverInformation (C := reactProject) 0 lodashEdge) = true.
Proof.
  assert (Hmissing :
            JS.truthy (getInstalledVersion (Collaborators := reactProject)
                         0 lodashEdge) = false)
    by (vm_compute; reflexivity).
  split; [exact Hmissing|].
  exact (proj1 (@X6_missing_package_is_a_problem _ reactProject 0 lodashEdge
                  reportOnly (initial 0) Hmissing)).
Defined.

Lemma X7_witness :
  exists v,
    installedVersion (applySemverInformation (C := reactProject) 0 reactEdge)
    = Some v
    /\ v <> EmptyString.
Proof.
  destruct (@X7_satisfied_or_yalc_has_a_version _ reactProject 0 reactEdge)
    as [v [Hv [_ [Hne _]]]].
  - left. vm_compute. reflexivity.
  - exists v. split; assumption.
Defined.

Lemma X9_witness :
  exists events,
    installPeerDependencies (C := upgradeProject)
      (fun _ _ => outOfBudget) ["npm install lib@2.5.0"] installOptions []
      "npm" (initial 0)
    = Some (Ret tt {| world := 1; recursiveCount := 0; console := events |})
    /\ filter isExec events = [Exec "npm install lib@2.5.0"].
Proof.
  assert (Hnone : newUnsatisfied (C := upgradeProject)
                    (execAll (C := upgradeProject) ["npm install lib@2.5.0"]
                       (world (initial 0)))
                    installOptions [] = [])
    by (vm_compute; reflexivity).
  destruct (@X9_install_runs_each_command_once _ upgradeProject
              (fun _ _ => outOfBudget) ["npm install lib@2.5.0"]
              installOptions [] "npm" (initial 0) Hnone)
    as [events [Hrun [Hexec _]]].
  exists events. split; [exact Hrun | exact Hexec].
Defined.

Lemma X10_witness :
  exists s',
    checkPeerDependencies (C := yalcAfterInstall) 2 "npm" installOptions
      (initial 0) = Some (Ret tt s')
    /\ recursiveCount s' = 1
    /\ installingSteps (console s') = 1.
Proof.
  assert (Hreaches : reachesInstall (C := yalcAfterInstall) "npm"
                       installOptions (world (initial 0)))
    by (repeat split; vm_compute; congruence).
  assert (Hnew : passNewUnsatisfied (C := yalcAfterInstall) "npm"
                   (world (initial 0)) installOptions <> [])
    by (vm_compute; discriminate).
  assert (Hclean : passProblems (C := yalcAfterInstall)
                     (afterInstall (C := yalcAfterInstall) "npm" installOptions
                        (world (initial 0)))
                     installOptions = [])
    by (vm_compute; reflexivity).
  destruct (@X10_recheck_without_problems_returns _ yalcAfterInstall
              "npm" installOptions (initial 0) 0 Hreaches Hnew
              (Nat.lt_0_succ 3) Hclean)
    as [s' [Hrun [_ [Hcount [Hsteps _]]]]].
  exists s'. auto.
Defined.

Lemma X11_witness :
  exists s',
    checkPeerDependencies (C := stuckProject) 2 "npm" installOptions
      {| world := 0; recursiveCount := 3; console := [] |}
    = Some (Exit 5 s')
    /\ installingSteps (console s') = 2.
Proof.
  assert (Hkeeps : keepsInstalling (C := stuckProject) "npm" installOptions
                     (world {| world := 0; recursiveCount := 3; console := [] |})
                     2).
  { intros k Hk.
    do 2 (destruct k as [|k];
          [split; [repeat split; vm_compute; congruence
                  | vm_compute; discriminate]|]).
    lia. }
  destruct (@X11_limit_counts_from_the_current_counter _ stuckProject
              "npm" installOptions
              {| world := 0; recursiveCount := 3; console := [] |}
              1 2 eq_refl (le_n 2) Hkeeps)
    as [s' [Hrun [_ Hsteps]]].
  exists s'. split; [exact Hrun | exact Hsteps].
Defined.

Lemma X12_witness :
  exists s',
    checkPeerDependencies (C := twoUpgrades) 1 "npm" searchOptions (initial 0)
    = Some (Exit 1 s')
    /\ In (Log "npm install lib@2.5.0 react@16.8.0") (console s')
    /\ In (Log "Install peerDependencies using this command:") (console s').
Proof.
  assert (Hproblems : passProblems (C := twoUpgrades) (world (initial 0))
                        searchOptions <> [])
    by (vm_compute; discriminate).
  destruct (@X12_search_only_lists_the_commands _ twoUpgrades
              "npm" searchOptions (initial 0) 0 eq_refl eq_refl Hproblems)
    as [status [_ Hrun]].
  eexists. split; [exact Hrun|].
  cbn [say console initial]. rewrite !in_app_iff.
  split; right; right; vm_compute; tauto.
Defined.


Lemma X14_witness :
  peerDepRanges "lib"
    [libEdge; edge "plugin" "1.0.0" "lib" ">=2.0.0"; reactEdge]
  = [">=2.0.0"].
Proof.
  refine (proj1 (@X14_one_range_declared_by_many
                   {| problem := libEdge; resolution := None |}
                   [libEdge; edge "plugin" "1.0.0" "lib" ">=2.0.0"; reactEdge]
                   ">=2.0.0" _ _)).
  - exists libEdge. split; [now left | reflexivity].
  - intros dep [<-|[<-|[<-|[]]]] Hname;
      [reflexivity | reflexivity | vm_compute in Hname; discriminate].
Defined.

Lemma X15_witness :
  semverSatisfies (applySemverInformation (C := upgradeProject) 1 libEdge)
  = true.
Proof.
  assert (Hnone : newUnsatisfied (C := upgradeProject)
                    (execAll (C := upgradeProject) ["npm install lib@2.5.0"]
                       (world (initial 0)))
                    installOptions [] = [])
    by (vm_compute; reflexivity).
  destruct (@X15_install_success_means_all_satisfied _ upgradeProject
              (fun _ _ => outOfBudget) ["npm install lib@2.5.0"]
              installOptions [] "npm" (initial 0) Hnone)
    as [_ Hsuccess].
  apply (proj2 (Hsuccess eq_refl)). left. reflexivity.
Defined.
